(** * prow/kube/client.go: the request execution layer of the Kubernetes client

    A shallow embedding of [prow/kube/client.go]: the retry loop
    ([requestRetry]), the transport invoker ([doRequest]), the typed facade
    ([request]), the two constructors and the resource methods, followed by
    the properties of the execution layer.

    Conventions.
    - Go [string] and [[]byte] are both [string] (sequences of bytes).
    - Go [int] and [time.Duration] are [Z]; [time.Duration] is an int64
      count of nanoseconds and its arithmetic wraps around ([Go.wrap64]).
    - A Go [error] value is an interface value: a dynamic type together
      with the text its [Error()] method returns ([Go.error]); [nil] is
      [None].
    - Effects (logger calls, network round trips, sleeps, closing a response
      body) are recorded in order in the [trace] of a [World], which the
      code threads through the monad [M]. *)

From Stdlib Require Import ZArith String Ascii List Lia.
From stdpp Require Import base strings gmap list.

Local Open Scope Z_scope.

(** ** Go: strings, durations, errors and interface assertions *)

Module Go.

(** The double-quote character and the one-character string holding it. *)
Definition dq : ascii := ascii_of_nat 34.
Definition quote : string := String dq EmptyString.

(** [strings.Join(elems, sep)]. *)
Fixpoint Join (elems : list string) (sep : string) : string :=
  match elems with
  | [] => EmptyString
  | [x] => x
  | x :: rest => x +:+ sep +:+ Join rest sep
  end.

(** [s] occurs inside [t]. *)
Definition contains (t s : string) : Prop :=
  exists pre post : string, t = pre +:+ s +:+ post.

(** int64 wrap-around, as for [time.Duration]. *)
Definition wrap64 (x : Z) : Z := (x + 2 ^ 63) mod 2 ^ 64 - 2 ^ 63.

Definition Nanosecond : Z := 1.
Definition Second : Z := 1000000000 * Nanosecond.

(** A dynamic (concrete) type: its name and its method set. *)
Record DynType := mkDynType { tname : string; methods : list string }.

(** An interface type is its method set. *)
Definition InterfaceType := list string.

(** [type error interface { Error() string }]. *)
Definition error_iface : InterfaceType := ["Error"%string].

(** A non-nil value of static type [error]. *)
Record error := mkError { dynType : DynType; Error : string }.

(** [fmt.Sprintf("%v", x)] on a value of the type. *)
Class Formatter (T : Type) := { fmtV : T -> string }.

(** [*errors.errorString], the concrete type behind [errors.New] and behind
    [fmt.Errorf] when the format has no [%w] verb. *)
Definition errorString : DynType :=
  mkDynType "*errors.errorString" ["Error"%string].

(** [fmt.Errorf(format, args...)], given the formatted text. *)
Definition Errorf (text : string) : error := mkError errorString text.

(** Does the dynamic type [d] implement the interface [I]? *)
Definition implements (d : DynType) (I : InterfaceType) : bool :=
  forallb (fun m => existsb (String.eqb m) (methods d)) I.

(** The type assertion [x.(I)] for an interface type [I] (the [ok] of the
    comma-ok form, the matching case of a type switch): it holds when [x]
    is not nil and its dynamic type implements [I]. *)
Definition typeAssert (x : option error) (I : InterfaceType) : bool :=
  match x with
  | None => false
  | Some e => implements (dynType e) I
  end.

(** Converting an interface value to another interface type, [I(x)], keeps
    the dynamic type and the value; only the static type changes. *)
Definition convert (I : InterfaceType) (x : error) : error := x.

End Go.

(** ** encoding/json: syntax check and decoding into a struct *)

Module Json.

Import Go.

#[warnings="-register-all"]
Inductive value :=
| Null
| Bool (b : bool)
| Number (lit : string)
| Str (s : string)
| Array (vs : list value)
| Object (kvs : list (string * value)).

Definition is_ws (c : ascii) : bool :=
  Ascii.eqb c " " || Ascii.eqb c "009" || Ascii.eqb c "010" || Ascii.eqb c "013".

Definition is_digit (c : ascii) : bool :=
  let n := nat_of_ascii c in (48 <=? n)%nat && (n <=? 57)%nat.

Fixpoint skip_ws (s : string) : string :=
  match s with
  | String c r => if is_ws c then skip_ws r else s
  | EmptyString => s
  end.

(** How a scan ends: with what was read and the text that is left; at the
    end of the input, before the value is whole; or at a character that
    cannot stand where it is, with the scanner's words for the place. *)
Inductive scanned (A : Type) : Type :=
| Scanned (a : A) (rest : string)
| UnexpectedEnd
| Invalid (c : ascii) (context : string).

Arguments Scanned {A} a rest.
Arguments UnexpectedEnd {A}.
Arguments Invalid {A} c context.

(** The text [x] put in front of what a scan of a string gives. *)
Definition prepend (x : string) (sc : scanned string) : scanned string :=
  match sc with
  | Scanned a rest => Scanned (x +:+ a) rest
  | UnexpectedEnd => UnexpectedEnd
  | Invalid c context => Invalid c context
  end.

Definition between (lo hi n : N) : bool := ((lo <=? n) && (n <=? hi))%N.

(** The value of a hexadecimal digit. *)
Definition hexval (c : ascii) : option N :=
  let n := N_of_ascii c in
  if between 48 57 n then Some (n - 48)%N
  else if between 97 102 n then Some (n - 87)%N
  else if between 65 70 n then Some (n - 55)%N
  else None.

(** The [n] hexadecimal digits after a backslash and [u]. *)
Fixpoint hexdigits (n : nat) (acc : N) (s : string) : scanned N :=
  match n with
  | O => Scanned acc s
  | S n' =>
      match s with
      | EmptyString => UnexpectedEnd
      | String c r =>
          match hexval c with
          | Some v => hexdigits n' (acc * 16 + v)%N r
          | None => Invalid c "in \u hexadecimal character escape"
          end
      end
  end.

(** [getu4]: the code unit of an escape [\uXXXX] at the head of [s], if
    there is one. *)
Definition getu4 (s : string) : option (N * string) :=
  match s with
  | String "\" (String "u" r) =>
      match hexdigits 4 0 r with
      | Scanned u rest => Some (u, rest)
      | _ => None
      end
  | _ => None
  end.

Definition one (n : N) : string := String (ascii_of_N n) EmptyString.

(** [utf8.EncodeRune]: a surrogate or a value past U+10FFFF is written as
    U+FFFD. *)
Definition EncodeRune (r : N) : string :=
  let r := if ((1114111 <? r) || between 55296 57343 r)%N then 65533%N else r in
  if (r <? 128)%N then one r
  else if (r <? 2048)%N then
    one (192 + r / 64) +:+ one (128 + r mod 64)
  else if (r <? 65536)%N then
    one (224 + r / 4096) +:+ one (128 + (r / 64) mod 64) +:+ one (128 + r mod 64)
  else
    one (240 + r / 262144) +:+ one (128 + (r / 4096) mod 64)
    +:+ one (128 + (r / 64) mod 64) +:+ one (128 + r mod 64).

Definition continuation (c : ascii) : bool := between 128 191 (N_of_ascii c).

(** The length of the UTF-8 sequence at the head of [s] when it is well
    formed (what [utf8.DecodeRune] accepts: shortest form, no surrogate,
    nothing past U+10FFFF). *)
Definition runeLen (s : string) : option nat :=
  match s with
  | EmptyString => None
  | String c0 r =>
      let b0 := N_of_ascii c0 in
      if (b0 <? 128)%N then Some 1%nat
      else if between 194 223 b0 then
        match r with
        | String c1 _ => if continuation c1 then Some 2%nat else None
        | _ => None
        end
      else if between 224 239 b0 then
        match r with
        | String c1 (String c2 _) =>
            let lo := if (b0 =? 224)%N then 160%N else 128%N in
            let hi := if (b0 =? 237)%N then 159%N else 191%N in
            if between lo hi (N_of_ascii c1) && continuation c2
            then Some 3%nat else None
        | _ => None
        end
      else if between 240 244 b0 then
        match r with
        | String c1 (String c2 (String c3 _)) =>
            let lo := if (b0 =? 240)%N then 144%N else 128%N in
            let hi := if (b0 =? 244)%N then 143%N else 191%N in
            if between lo hi (N_of_ascii c1) && continuation c2 && continuation c3
            then Some 4%nat else None
        | _ => None
        end
      else None
  end.

(** The first [n] characters of [s], and the rest. *)
Fixpoint splitAt (n : nat) (s : string) : string * string :=
  match n, s with
  | S n', String c r => let '(a, b) := splitAt n' r in (String c a, b)
  | _, _ => (EmptyString, s)
  end.

(** The character that a one-letter escape stands for. *)
Definition unescape (e : ascii) : option ascii :=
  if Ascii.eqb e dq || Ascii.eqb e "\" || Ascii.eqb e "/" then Some e
  else if Ascii.eqb e "b" then Some "008"%char
  else if Ascii.eqb e "f" then Some "012"%char
  else if Ascii.eqb e "n" then Some "010"%char
  else if Ascii.eqb e "r" then Some "013"%char
  else if Ascii.eqb e "t" then Some "009"%char
  else None.

(** A string literal after its opening quote, up to its closing quote, with
    its text decoded as [unquote] does: the escapes replaced by what they
    stand for (a pair of surrogate escapes by the one character, a lone
    surrogate by U+FFFD), bytes that are not UTF-8 replaced by U+FFFD. Only
    the escapes of JSON pass, and no control character. [fuel] is more
    than the length of [s]. *)
Fixpoint scan_string (fuel : nat) (s : string) : scanned string :=
  match fuel with
  | O => UnexpectedEnd
  | S f =>
      match s with
      | EmptyString => UnexpectedEnd
      | String c r =>
          if Ascii.eqb c dq then Scanned EmptyString r
          else if Ascii.eqb c "\" then
            match r with
            | EmptyString => UnexpectedEnd
            | String e r' =>
                match unescape e with
                | Some x => prepend (String x EmptyString) (scan_string f r')
                | None =>
                    if Ascii.eqb e "u" then
                      match hexdigits 4 0 r' with
                      | Scanned u r2 =>
                          if between 55296 57343 u then
                            match getu4 r2 with
                            | Some (u2, r3) =>
                                if between 55296 56319 u && between 56320 57343 u2
                                then prepend
                                       (EncodeRune ((u - 55296) * 1024
                                                    + (u2 - 56320) + 65536)%N)
                                       (scan_string f r3)
                                else prepend (EncodeRune 65533) (scan_string f r2)
                            | None => prepend (EncodeRune 65533) (scan_string f r2)
                            end
                          else prepend (EncodeRune u) (scan_string f r2)
                      | UnexpectedEnd => UnexpectedEnd
                      | Invalid x context => Invalid x context
                      end
                    else Invalid e "in string escape code"
                end
            end
          else if (N_of_ascii c <? 32)%N then Invalid c "in string literal"
          else if (N_of_ascii c <? 128)%N then
            prepend (String c EmptyString) (scan_string f r)
          else
            match runeLen s with
            | Some n =>
                let '(run, rest) := splitAt n s in prepend run (scan_string f rest)
            | None => prepend (EncodeRune 65533) (scan_string f r)
            end
      end
  end.

Fixpoint span_digits (s : string) : string * string :=
  match s with
  | String c r =>
      if is_digit c then let '(d, rest) := span_digits r in (String c d, rest)
      else (EmptyString, s)
  | EmptyString => (EmptyString, s)
  end.

(** The exponent of a number, if there is one, after the text [lit]. *)
Definition scan_exponent (lit : string) (s : string) : scanned string :=
  match s with
  | String e r =>
      if Ascii.eqb e "e" || Ascii.eqb e "E" then
        let '(sg, r1) :=
          match r with
          | String "+" r' => ("+"%string, r')
          | String "-" r' => ("-"%string, r')
          | _ => (EmptyString, r)
          end in
        match r1 with
        | EmptyString => UnexpectedEnd
        | String d r2 =>
            if is_digit d then
              let '(ds, r3) := span_digits r2 in
              Scanned (lit +:+ String e sg +:+ String d ds) r3
            else Invalid d "in exponent of numeric literal"
        end
      else Scanned lit s
  | EmptyString => Scanned lit s
  end.

(** The fraction and the exponent of a number, if there are, after [lit]. *)
Definition scan_fraction (lit : string) (s : string) : scanned string :=
  match s with
  | String "." r =>
      match r with
      | EmptyString => UnexpectedEnd
      | String d r1 =>
          if is_digit d then
            let '(ds, r2) := span_digits r1 in
            scan_exponent (lit +:+ "." +:+ String d ds) r2
          else Invalid d "after decimal point in numeric literal"
      end
  | _ => scan_exponent lit s
  end.

(** A number literal whose first character is a minus sign or a digit: an
    optional minus sign, then a single zero or digits that do not start
    with zero, then an optional fraction and an optional exponent. After a
    leading zero the number is over: a digit that follows is left to the
    caller, which refuses it. *)
Definition scan_number (s : string) : scanned string :=
  let '(sign, s1) :=
    match s with
    | String "-" r => ("-"%string, r)
    | _ => (EmptyString, s)
    end in
  match s1 with
  | EmptyString => UnexpectedEnd
  | String c r =>
      if Ascii.eqb c "0" then scan_fraction (sign +:+ "0") r
      else if is_digit c then
        let '(ds, r1) := span_digits r in scan_fraction (sign +:+ String c ds) r1
      else Invalid c "in numeric literal"
  end.

(** The letters [todo] of the literal [name], one after the other. *)
Fixpoint scan_literal (name todo : string) (s : string) : scanned unit :=
  match todo with
  | EmptyString => Scanned tt s
  | String x todo' =>
      match s with
      | EmptyString => UnexpectedEnd
      | String c r =>
          if Ascii.eqb c x then scan_literal name todo' r
          else Invalid c ("in literal " +:+ name +:+ " (expecting '"
                          +:+ String x EmptyString +:+ "')")
      end
  end.

(** The deepest nesting of arrays and objects that the scanner follows. *)
Definition maxNestingDepth : N := 10000.

(** One JSON value at the head of [s], inside [depth] arrays and objects;
    [fuel] is more than twice the length of [s]. *)
Fixpoint parse_value (fuel : nat) (depth : N) (s : string) : scanned value :=
  match fuel with
  | O => UnexpectedEnd
  | S f =>
      match skip_ws s with
      | EmptyString => UnexpectedEnd
      | String c r =>
          if Ascii.eqb c "{" then
            if (maxNestingDepth <=? depth)%N then Invalid c "exceeded max depth"
            else
              match skip_ws r with
              | EmptyString => UnexpectedEnd
              | String c1 r1 =>
                  if Ascii.eqb c1 "}" then Scanned (Object []) r1
                  else if Ascii.eqb c1 dq then
                    match parse_members f (depth + 1)%N r1 with
                    | Scanned kvs rest => Scanned (Object kvs) rest
                    | UnexpectedEnd => UnexpectedEnd
                    | Invalid x context => Invalid x context
                    end
                  else Invalid c1 "looking for beginning of object key string"
              end
          else if Ascii.eqb c "[" then
            if (maxNestingDepth <=? depth)%N then Invalid c "exceeded max depth"
            else
              match skip_ws r with
              | EmptyString => UnexpectedEnd
              | String c1 r1 =>
                  if Ascii.eqb c1 "]" then Scanned (Array []) r1
                  else
                    match parse_elements f (depth + 1)%N (String c1 r1) with
                    | Scanned vs rest => Scanned (Array vs) rest
                    | UnexpectedEnd => UnexpectedEnd
                    | Invalid x context => Invalid x context
                    end
              end
          else if Ascii.eqb c dq then
            match scan_string (S (String.length r)) r with
            | Scanned body rest => Scanned (Str body) rest
            | UnexpectedEnd => UnexpectedEnd
            | Invalid x context => Invalid x context
            end
          else if Ascii.eqb c "-" || is_digit c then
            match scan_number (String c r) with
            | Scanned lit rest => Scanned (Number lit) rest
            | UnexpectedEnd => UnexpectedEnd
            | Invalid x context => Invalid x context
            end
          else if Ascii.eqb c "t" then
            match scan_literal "true" "rue" r with
            | Scanned _ rest => Scanned (Bool true) rest
            | UnexpectedEnd => UnexpectedEnd
            | Invalid x context => Invalid x context
            end
          else if Ascii.eqb c "f" then
            match scan_literal "false" "alse" r with
            | Scanned _ rest => Scanned (Bool false) rest
            | UnexpectedEnd => UnexpectedEnd
            | Invalid x context => Invalid x context
            end
          else if Ascii.eqb c "n" then
            match scan_literal "null" "ull" r with
            | Scanned _ rest => Scanned Null rest
            | UnexpectedEnd => UnexpectedEnd
            | Invalid x context => Invalid x context
            end
          else Invalid c "looking for beginning of value"
      end
  end
with parse_members (fuel : nat) (depth : N) (s : string)
  : scanned (list (string * value)) :=
  (* [s] starts after the opening quote of a key *)
  match fuel with
  | O => UnexpectedEnd
  | S f =>
      match scan_string (S (String.length s)) s with
      | Scanned k r1 =>
          match skip_ws r1 with
          | EmptyString => UnexpectedEnd
          | String c2 r2 =>
              if Ascii.eqb c2 ":" then
                match parse_value f depth r2 with
                | Scanned v r3 =>
                    match skip_ws r3 with
                    | EmptyString => UnexpectedEnd
                    | String c4 r4 =>
                        if Ascii.eqb c4 "," then
                          match skip_ws r4 with
                          | EmptyString => UnexpectedEnd
                          | String c5 r5 =>
                              if Ascii.eqb c5 dq then
                                match parse_members f depth r5 with
                                | Scanned kvs r6 => Scanned ((k, v) :: kvs) r6
                                | UnexpectedEnd => UnexpectedEnd
                                | Invalid x context => Invalid x context
                                end
                              else Invalid c5 "looking for beginning of object key string"
                          end
                        else if Ascii.eqb c4 "}" then Scanned [(k, v)] r4
                        else Invalid c4 "after object key:value pair"
                    end
                | UnexpectedEnd => UnexpectedEnd
                | Invalid x context => Invalid x context
                end
              else Invalid c2 "after object key"
          end
      | UnexpectedEnd => UnexpectedEnd
      | Invalid x context => Invalid x context
      end
  end
with parse_elements (fuel : nat) (depth : N) (s : string) : scanned (list value) :=
  match fuel with
  | O => UnexpectedEnd
  | S f =>
      match parse_value f depth s with
      | Scanned v r1 =>
          match skip_ws r1 with
          | EmptyString => UnexpectedEnd
          | String c2 r2 =>
              if Ascii.eqb c2 "," then
                match parse_elements f depth r2 with
                | Scanned vs r3 => Scanned (v :: vs) r3
                | UnexpectedEnd => UnexpectedEnd
                | Invalid x context => Invalid x context
                end
              else if Ascii.eqb c2 "]" then Scanned [v] r2
              else Invalid c2 "after array element"
          end
      | UnexpectedEnd => UnexpectedEnd
      | Invalid x context => Invalid x context
      end
  end.

(** The scan of all of [data] as one JSON value ([checkValid] and the
    decoding of its strings): nothing but white space may follow it. *)
Definition scan (data : string) : scanned value :=
  match parse_value (2 * String.length data + 2) 0 data with
  | Scanned v rest =>
      match skip_ws rest with
      | EmptyString => Scanned v EmptyString
      | String c _ => Invalid c "after top-level value"
      end
  | UnexpectedEnd => UnexpectedEnd
  | Invalid c context => Invalid c context
  end.

(** The value that [data] holds, when all of [data] is one JSON value. *)
Definition parse (data : string) : option value :=
  match scan data with
  | Scanned v _ => Some v
  | _ => None
  end.

Definition lowerhex (n : N) : string :=
  one (if (n <? 10)%N then 48 + n else 87 + n)%N.

(** [quoteChar]: a byte between single quotes, as the messages of the
    scanner show it: itself when it is printable, an escape otherwise. *)
Definition quoteChar (c : ascii) : string :=
  let n := N_of_ascii c in
  if (n =? 39)%N then "'\''"
  else if (n =? 34)%N then "'" +:+ quote +:+ "'"
  else
    "'" +:+
    (if (n =? 92)%N then "\\"
     else if between 32 126 n then one n
     else if (n =? 7)%N then "\a"
     else if (n =? 8)%N then "\b"
     else if (n =? 12)%N then "\f"
     else if (n =? 10)%N then "\n"
     else if (n =? 13)%N then "\r"
     else if (n =? 9)%N then "\t"
     else if (n =? 11)%N then "\v"
     else if ((n <? 32) || (n =? 127))%N then
       "\x" +:+ lowerhex (n / 16) +:+ lowerhex (n mod 16)
     else if between 161 255 n && negb (n =? 173)%N then EncodeRune n
     else "\u00" +:+ lowerhex (n / 16) +:+ lowerhex (n mod 16))
    +:+ "'".

(** The text of the [*json.SyntaxError] for a scan that failed. *)
Definition syntaxErrorText {A} (sc : scanned A) : string :=
  match sc with
  | Invalid c context => "invalid character " +:+ quoteChar c +:+ " " +:+ context
  | _ => "unexpected end of JSON input"
  end.

Definition SyntaxError (msg : string) : error :=
  mkError (mkDynType "*json.SyntaxError" ["Error"%string]) msg.

Definition UnmarshalTypeError (msg : string) : error :=
  mkError (mkDynType "*json.UnmarshalTypeError" ["Error"%string]) msg.

(** What the decoder needs to know of a struct type whose declaration lies
    outside this file ([Pod], [Job]): its zero value, and how one object
    member is stored into it (unknown keys are ignored; a member of the
    wrong shape reports an error and leaves the field). *)
Class Decodable (T : Type) := {
  zero : T;
  setField : string -> value -> T -> T * option error
}.

(** [json.Marshal] on a value of the type. *)
Class Encodable (T : Type) := {
  Marshal : T -> error + string
}.

Definition firstError (e1 e2 : option error) : option error :=
  match e1 with
  | Some _ => e1
  | None => e2
  end.

(** The decoder's loop over the members of an object: every member is
    stored in turn and the first error is kept. *)
Fixpoint object {T} `{Decodable T} (kvs : list (string * value)) (t : T)
  : T * option error :=
  match kvs with
  | [] => (t, None)
  | (k, v) :: rest =>
      let '(t1, e1) := setField k v t in
      let '(t2, e2) := object rest t1 in
      (t2, firstError e1 e2)
  end.

(** Decoding a value into a struct: an object is stored member by member,
    [null] changes nothing, anything else is a type error. *)
Definition decode {T} `{Decodable T} (v : value) (t : T) : T * option error :=
  match v with
  | Object kvs => object kvs t
  | Null => (t, None)
  | _ => (t, Some (UnmarshalTypeError
                     "json: cannot unmarshal a non-object into a Go struct"))
  end.

(** [json.Unmarshal(data, &t)]: the syntax of all of [data] is checked
    before anything is stored, so invalid input leaves [t] as it was. *)
Definition Unmarshal {T} `{Decodable T} (data : string) (t : T)
  : T * option error :=
  match scan data with
  | Scanned v _ => decode v t
  | failed => (t, Some (SyntaxError (syntaxErrorText failed)))
  end.

(** The characters of a string as [json.Marshal] writes them between the
    quotes (encoding/json as of Go 1.22, with its default escaping for
    HTML): a quote and a backslash get a backslash; the control characters
    get their short escape or an escape of the form u00XX, and so do the
    characters less-than, greater-than and ampersand; U+2028 and U+2029 are
    escaped; a byte that is not UTF-8 becomes the escape of U+FFFD. [fuel]
    is at least the length of [s]. *)
Fixpoint encodeChars (fuel : nat) (s : string) : string :=
  match fuel with
  | O => EmptyString
  | S f =>
      match s with
      | EmptyString => EmptyString
      | String c r =>
          let n := N_of_ascii c in
          if (n <? 128)%N then
            (if Ascii.eqb c "\" || Ascii.eqb c dq then String "\" (String c EmptyString)
             else if (n =? 8)%N then "\b"
             else if (n =? 12)%N then "\f"
             else if (n =? 10)%N then "\n"
             else if (n =? 13)%N then "\r"
             else if (n =? 9)%N then "\t"
             else if (n <? 32)%N || Ascii.eqb c "<" || Ascii.eqb c ">" || Ascii.eqb c "&"
             then "\u00" +:+ lowerhex (n / 16) +:+ lowerhex (n mod 16)
             else String c EmptyString)
            +:+ encodeChars f r
          else
            match runeLen s with
            | None => "\ufffd" +:+ encodeChars f r
            | Some k =>
                let '(run, rest) := splitAt k s in
                (if String.eqb run (EncodeRune 8232) then "\u2028"
                 else if String.eqb run (EncodeRune 8233) then "\u2029"
                 else run)
                +:+ encodeChars f rest
            end
      end
  end.

(** A Go string as [json.Marshal] encodes it. *)
Definition encodeString (s : string) : string :=
  quote +:+ encodeChars (String.length s) s +:+ quote.

(** ASCII case folding, for the match of a member key with a field name. *)
Definition lower (c : ascii) : ascii :=
  let n := nat_of_ascii c in
  if (65 <=? n)%nat && (n <=? 90)%nat then ascii_of_nat (n + 32) else c.

Fixpoint lowerString (s : string) : string :=
  match s with
  | EmptyString => EmptyString
  | String c r => String (lower c) (lowerString r)
  end.

Definition foldEq (a b : string) : bool :=
  String.eqb (lowerString a) (lowerString b).

(** [struct { Items []T `json:"items"` }], the result slot of the list
    calls. *)
Record ItemList (T : Type) := mkItemList { Items : list T }.

Arguments mkItemList {T} _.
Arguments Items {T} _.

(** Decoding an array into a slice: element [i] is decoded into the old
    element [i] when there is one, into a zero value otherwise. *)
Fixpoint decodeElems {T} `{Decodable T} (vs : list value) (old : list T)
  : list T * option error :=
  match vs with
  | [] => ([], None)
  | v :: vs' =>
      let '(x, e1) := decode v (hd zero old) in
      let '(xs, e2) := decodeElems vs' (tl old) in
      (x :: xs, firstError e1 e2)
  end.

#[export] Instance ItemList_Decodable {T} `{Decodable T} : Decodable (ItemList T) :=
  {| zero := mkItemList [];
     setField := fun k v il =>
       if foldEq k "items" then
         match v with
         | Array vs =>
             let '(xs, e) := decodeElems vs (Items il) in (mkItemList xs, e)
         | Null => (mkItemList [], None)
         | _ => (il, Some (UnmarshalTypeError
                             "json: cannot unmarshal a non-array into a Go slice"))
         end
       else (il, None) |}.

(** Go's empty struct, [struct{}]: no field to store into, encoded as the
    empty object. *)
Definition emptyStruct : Type := unit.

#[export] Instance emptyStruct_Decodable : Decodable emptyStruct :=
  {| zero := tt; setField := fun _ _ t => (t, None) |}.

#[export] Instance emptyStruct_Encodable : Encodable emptyStruct :=
  {| Marshal := fun _ => inr "{}"%string |}.

End Json.

(** ** net/http, crypto/x509, io/ioutil: the data the client exchanges *)

Module Net.

Import Go.

(** [url.Values] and [http.Header]: a key maps to a list of values. *)
Abbreviation Values := (gmap string (list string)).

(** An outgoing [*http.Request], as far as [doRequest] touches it. *)
Record HttpRequest := mkHttpRequest {
  Method : string;
  URL : string;
  RawQuery : string;
  Header : Values;
  ReqBody : option string
}.

(** An [*http.Response]: [Body] is what [ioutil.ReadAll(resp.Body)] gives. *)
Record Response := mkResponse {
  StatusCode : Z;
  Status : string;
  Body : error + string
}.

Definition MethodGet : string := "GET".
Definition MethodPost : string := "POST".
Definition MethodPut : string := "PUT".
Definition MethodPatch : string := "PATCH".
Definition MethodDelete : string := "DELETE".

(** [h.Set(key, value)] replaces the values of [key]. *)
Definition HeaderSet (h : Values) (key value : string) : Values :=
  <[key := [value]]> h.

(** [q.Add(key, value)] appends to the values of [key]. *)
Definition ValuesAdd (q : Values) (key value : string) : Values :=
  <[key := default [] (q !! key) ++ [value]]> q.

Definition upperhex (n : N) : string :=
  String (ascii_of_N (if (n <? 10)%N then 48 + n else 55 + n)%N) EmptyString.

(** [url.QueryEscape]: letters, digits and [-], [_], [.], [~] stay, a space
    becomes [+], every other byte becomes [%XX]. *)
Fixpoint QueryEscape (s : string) : string :=
  match s with
  | EmptyString => EmptyString
  | String c r =>
      let n := N_of_ascii c in
      (if ((97 <=? n) && (n <=? 122) || (65 <=? n) && (n <=? 90)
           || (48 <=? n) && (n <=? 57))%N
          || Ascii.eqb c "-" || Ascii.eqb c "_" || Ascii.eqb c "." || Ascii.eqb c "~"
       then String c EmptyString
       else if Ascii.eqb c " " then "+"%string
       else "%" +:+ upperhex (n / 16) +:+ upperhex (n mod 16))
      +:+ QueryEscape r
  end.

(** Sorting the entries of a map by key, in byte order. *)
Fixpoint insertByKey {A} (kv : string * A) (l : list (string * A)) : list (string * A) :=
  match l with
  | [] => [kv]
  | kv' :: l' =>
      if String.leb kv.1 kv'.1 then kv :: l else kv' :: insertByKey kv l'
  end.

Definition sortByKey {A} (l : list (string * A)) : list (string * A) :=
  fold_right insertByKey [] l.

(** [url.Values.Encode]: the keys in sorted order, and for each key its
    values in their order, as [key=value] joined by [&], both escaped. *)
Definition ValuesEncode (q : Values) : string :=
  Join (flat_map (fun kv : string * list string =>
                    map (fun v => QueryEscape kv.1 +:+ "=" +:+ QueryEscape v) kv.2)
                 (sortByKey (map_to_list q)))
       "&".

(** [tls.VersionTLS12]. *)
Definition VersionTLS12 : Z := 771.

(** An [*x509.CertPool] is the list of the certificates it holds. *)
Definition CertPool : Type := list string.

Definition NewCertPool : CertPool := [].

Record tlsConfig := mkTlsConfig { MinVersion : Z; RootCAs : CertPool }.

(** [&http.Client{Transport: &http.Transport{TLSClientConfig: cfg}}]. *)
Record httpClient := mkHttpClient { TLSClientConfig : option tlsConfig }.

(** The world outside the program: library functions whose code is not in
    this package and the behaviour of the network and the file system.
    - [NewRequest method url body]: [http.NewRequest] (it parses the URL and
      checks the method);
    - [ParseQuery raw]: [req.URL.Query()] on a request whose raw query is
      [raw]; [Encode]: [url.Values.Encode];
    - [Do n req]: the outcome of the [n]-th call (from 0) of
      [c.client.Do], made with [req];
    - [ReadFile]: [ioutil.ReadFile];
    - [ParseCerts data]: the certificates that [AppendCertsFromPEM] finds in
      the PEM text [data];
    - [rangeOrder m]: the order in which a [range] loop visits the map [m];
    - [fmtLabels m]: [fmt.Sprintf("%v", m)] on a [map[string]string]. *)
Record Env := mkEnv {
  NewRequest : string -> string -> option string -> error + HttpRequest;
  ParseQuery : string -> Values;
  Encode : Values -> string;
  Do : nat -> HttpRequest -> error + Response;
  ReadFile : string -> error + string;
  ParseCerts : string -> list string;
  rangeOrder : gmap string string -> list (string * string);
  fmtLabels : gmap string string -> string
}.

(** [cp.AppendCertsFromPEM(data)]: the pool grows by the certificates
    found; the result tells whether there was at least one. *)
Definition AppendCertsFromPEM (env : Env) (cp : CertPool) (data : string)
  : CertPool * bool :=
  let found := ParseCerts env data in
  (cp ++ found, match found with [] => false | _ => true end).

End Net.

(** ** Effects *)

Module Effects.

Import Go Net.

(** A [Logger] is known by its handle. *)
Definition Logger : Type := nat.

Inductive Event :=
| EvPrintf (l : Logger) (format : string) (args : list string)
    (** [l.Printf(format, args...)] *)
| EvDoRequest
    (** entry into [doRequest]: one attempt of the retry loop begins *)
| EvRoundTrip (req : HttpRequest)
    (** [c.client.Do(req)]: the request goes to the network *)
| EvSleep (d : Z)
    (** [time.Sleep(d)] *)
| EvClose
    (** [resp.Body.Close()] *).

(** The state threaded through the program: what happened so far, and how
    many round trips were made. *)
Record World := mkWorld { trace : list Event; sent : nat }.

Definition world0 : World := mkWorld [] 0.

(** A run ends with a value or with a panic. *)
Inductive Res (A : Type) :=
| Val (a : A)
| Panic (why : string).

Arguments Val {A} a.
Arguments Panic {A} why.

Definition M (A : Type) : Type := World -> Res A * World.

Definition ret {A} (a : A) : M A := fun w => (Val a, w).

Definition bind {A B} (m : M A) (k : A -> M B) : M B :=
  fun w =>
    match m w with
    | (Val a, w') => k a w'
    | (Panic why, w') => (Panic why, w')
    end.

Definition panic {A} (why : string) : M A := fun w => (Panic why, w).

Definition emit (e : Event) : M unit :=
  fun w => (Val tt, mkWorld (trace w ++ [e]) (sent w)).

(** One network round trip: recorded, counted, answered by the world. *)
Definition roundTrip (env : Env) (req : HttpRequest) : M (error + Response) :=
  fun w => (Val (Do env (sent w) req),
            mkWorld (trace w ++ [EvRoundTrip req]) (S (sent w))).

#[export] Instance M_ret : MRet M := @ret.
#[export] Instance M_bind : MBind M := fun A B k m => bind m k.

(** Projections of a trace. *)
Definition isPrintf (e : Event) : bool :=
  match e with EvPrintf _ _ _ => true | _ => false end.
Definition isDoRequest (e : Event) : bool :=
  match e with EvDoRequest => true | _ => false end.
Definition isRoundTrip (e : Event) : bool :=
  match e with EvRoundTrip _ => true | _ => false end.
Definition isSleep (e : Event) : bool :=
  match e with EvSleep _ => true | _ => false end.

(** The logger calls of a trace, in order. *)
Definition logged (tr : list Event) : list Event := List.filter isPrintf tr.

(** The number of attempts, of round trips, and the sleeps of a trace. *)
Definition attempts (tr : list Event) : nat := length (List.filter isDoRequest tr).
Definition roundTrips (tr : list Event) : nat := length (List.filter isRoundTrip tr).
Definition sleeps (tr : list Event) : list Z :=
  flat_map (fun e => match e with EvSleep d => [d] | _ => [] end) tr.

End Effects.

(** ** The client *)

Module Kube.

Import Go Json Net Effects.

Definition inClusterBaseURL : string := "https://kubernetes".
Definition maxRetries : nat := 8.
Definition retryDelay : Z := 2 * Second.

(** [type Client struct]. A nil [Logger] and a nil [client] are [None]. *)
Record Client := mkClient {
  Logger : option Effects.Logger;
  baseURL : string;
  client : option httpClient;
  token : string;
  namespace : string;
  fake : bool
}.

(** [type ConflictError error]: a defined type whose underlying type is the
    interface type [error], hence itself an interface type with the method
    set of [error]. *)
Definition ConflictError_iface : InterfaceType := error_iface.

(** The conversion [ConflictError(err)]. *)
Definition ConflictError (err : error) : error := convert ConflictError_iface err.

(** [type request struct]; the body is an [interface{}], nil when [None]. *)
Record request_t (B : Type) := mkRequest {
  method : string;
  path : string;
  query : gmap string string;
  requestBody : option B
}.

Arguments mkRequest {B} _ _ _ _.
Arguments method {B} _.
Arguments path {B} _.
Arguments query {B} _.
Arguments requestBody {B} _.

(** A call without a body or without a result slot passes a nil
    [interface{}], which has no type: it is typed here at [struct{}]. *)
Definition nilBody : option emptyStruct := None.
Definition nilSlot : option emptyStruct := None.

(** [NewFakeClient]. *)
Definition NewFakeClient : Client :=
  {| Logger := None;
     baseURL := EmptyString;
     client := None;
     token := EmptyString;
     namespace := "default";
     fake := true |}.

(** The two files that [NewClientInCluster] reads. *)
Definition tokenFile : string :=
  "/var/run/secrets/kubernetes.io/serviceaccount/token".
Definition rootCAFile : string :=
  "/var/run/secrets/kubernetes.io/serviceaccount/ca.crt".

Section WithEnv.

Variable env : Env.

(** [NewClientInCluster]: the pair [(client, err)] it returns. *)
Definition NewClientInCluster (namespace : string) : option Client * option error :=
  match ReadFile env tokenFile with
  | inl err => (None, Some err)
  | inr token =>
      match ReadFile env rootCAFile with
      | inl err => (None, Some err)
      | inr certData =>
          let cp := NewCertPool in
          let '(cp, _) := AppendCertsFromPEM env cp certData in
          let tr := {| MinVersion := VersionTLS12; RootCAs := cp |} in
          let c := {| TLSClientConfig := Some tr |} in
          (Some {| Logger := None;
                   baseURL := inClusterBaseURL;
                   client := Some c;
                   token := token;
                   namespace := namespace;
                   fake := false |},
           None)
      end
  end.

(** An argument of [log], an [interface{}]: the callers pass strings, label
    maps and struct values. *)
Inductive any : Type :=
| AString (s : string)
| ALabels (m : gmap string string)
| AValue {T : Type} `{Formatter T} (x : T).

(** [fmt.Sprintf("%v", arg)]. *)
Definition Sprintf_v (arg : any) : string :=
  match arg with
  | AString s => s
  | ALabels m => fmtLabels env m
  | AValue x => fmtV x
  end.

(** [log]: nothing without a logger; otherwise one [Printf] whose arguments
    are the method name and the arguments joined by a comma. *)
Definition log (c : Client) (methodName : string) (args : list any) : M unit :=
  match Logger c with
  | None => mret tt
  | Some l =>
      let as_ := map Sprintf_v args in
      emit (EvPrintf l "%s(%s)" [methodName; Join as_ ", "])
  end.

(** [labelsToSelector]: the pairs are visited in the order of the [range]
    loop over the map. *)
Definition labelsToSelector (labels : gmap string string) : string :=
  let sel := map (fun kv => kv.1 +:+ " = " +:+ kv.2) (rangeOrder env labels) in
  Join sel ",".

(** The body of [doRequest] up to the call of [c.client.Do]: the request
    it builds, or the error that ends the attempt before any I/O. *)
Definition buildRequest {B} `{Encodable B} (c : Client) (method urlPath : string)
    (query : gmap string string) (body : option B) : error + HttpRequest :=
  let url := baseURL c +:+ urlPath in
  let buf : error + option string :=
    match body with
    | Some b =>
        match Marshal b with
        | inl err => inl err
        | inr bs => inr (Some bs)
        end
    | None => inr None
    end in
  match buf with
  | inl err => inl err
  | inr buf =>
      match NewRequest env method url buf with
      | inl err => inl err
      | inr req =>
          let h := HeaderSet (Header req) "Authorization" ("Bearer " +:+ token c) in
          let h :=
            if String.eqb method MethodPatch
            then HeaderSet h "Content-Type" "application/strategic-merge-patch+json"
            else HeaderSet h "Content-Type" "application/json" in
          let q := ParseQuery env (RawQuery req) in
          let q := fold_left (fun q kv => ValuesAdd q kv.1 kv.2)
                             (rangeOrder env query) q in
          inr {| Method := Method req;
                 URL := URL req;
                 RawQuery := Encode env q;
                 Header := h;
                 ReqBody := ReqBody req |}
      end
  end.

(** [doRequest]: one attempt. A nil [c.client] makes [c.client.Do] panic. *)
Definition doRequest {B} `{Encodable B} (c : Client) (method urlPath : string)
    (query : gmap string string) (body : option B) : M (error + Response) :=
  _ ← emit EvDoRequest;
  match buildRequest c method urlPath query body with
  | inl err => mret (inl err)
  | inr req =>
      match client c with
      | None => panic "invalid memory address or nil pointer dereference"
      | Some _ => roundTrip env req
      end
  end.

(** The loop of [requestRetry], with [n] iterations left
    ([n = maxRetries - retries]); [st] holds the variables [resp] and [err]. *)
Fixpoint retryLoop {B} `{Encodable B} (c : Client) (r : request_t B) (n : nat)
    (backoff : Z) (st : option Response * option error)
  : M (option Response * option error) :=
  match n with
  | O => mret st
  | S n' =>
      res ← doRequest c (method r) (path r) (query r) (requestBody r);
      match res with
      | inr resp => mret (Some resp, None)
      | inl err =>
          _ ← emit (EvSleep backoff);
          retryLoop c r n' (wrap64 (backoff * 2)) (None, Some err)
      end
  end.

(** The end of [requestRetry], from [ioutil.ReadAll] on: the body is read
    whole, then the status decides. *)
Definition interpret (resp : Response) : option string * option error :=
  match Body resp with
  | inl err => (None, Some err)
  | inr rb =>
      if StatusCode resp =? 409 then
        (None, Some (ConflictError (Errorf ("body: " +:+ rb))))
      else if (StatusCode resp <? 200) || (StatusCode resp >? 299) then
        (None, Some (Errorf ("response has status " +:+ quote +:+ Status resp
                             +:+ quote +:+ " and body " +:+ quote +:+ rb +:+ quote)))
      else (Some rb, None)
  end.

(** [requestRetry]: the pair [(bytes, err)] it returns. *)
Definition requestRetry {B} `{Encodable B} (c : Client) (r : request_t B)
  : M (option string * option error) :=
  if fake c then mret (Some "{}"%string, None)
  else
    '(resp, err) ← retryLoop c r maxRetries retryDelay (None, None);
    match err with
    | Some err => mret (None, Some err)
    | None =>
        match resp with
        | None => panic "invalid memory address or nil pointer dereference"
        | Some resp =>
            let out := interpret resp in
            _ ← emit EvClose;
            mret out
        end
    end.

(** The bytes of a [[]byte] that may be nil. *)
Definition bytes (out : option string) : string := default EmptyString out.

(** [request]: the slot [ret] after the call, and the error. *)
Definition request {B T} `{Encodable B} `{Decodable T} (c : Client)
    (r : request_t B) (ret : option T) : M (option T * option error) :=
  '(out, err) ← requestRetry c r;
  match err with
  | Some err => mret (ret, Some err)
  | None =>
      match ret with
      | Some t =>
          let '(t', err) := Unmarshal (bytes out) t in
          mret (Some t', err)
      | None => mret (None, None)
      end
  end.

(** *** The resource methods *)

Section Resources.

Context {Pod Job Secret : Type}.
Context `{Decodable Pod, Encodable Pod, Formatter Pod}.
Context `{Decodable Job, Encodable Job, Formatter Job}.
Context `{Encodable Secret}.

Definition GetPod (c : Client) (name : string) : M (Pod * option error) :=
  _ ← log c "GetPod" [AString name];
  let retPod : Pod := zero in
  '(slot, err) ← request c
    {| method := MethodGet;
       path := "/api/v1/namespaces/" +:+ namespace c +:+ "/pods/" +:+ name;
       query := ∅;
       requestBody := nilBody |} (Some retPod);
  mret (default retPod slot, err).

Definition ListPods (c : Client) (labels : gmap string string)
  : M (list Pod * option error) :=
  _ ← log c "ListPods" [ALabels labels];
  let pl : ItemList Pod := zero in
  '(slot, err) ← request c
    {| method := MethodGet;
       path := "/api/v1/namespaces/" +:+ namespace c +:+ "/pods";
       query := {[ "labelSelector"%string := labelsToSelector labels ]};
       requestBody := nilBody |} (Some pl);
  mret (Items (default pl slot), err).

Definition DeletePod (c : Client) (name : string) : M (option error) :=
  _ ← log c "DeletePod" [AString name];
  '(_, err) ← request c
    {| method := MethodDelete;
       path := "/api/v1/namespaces/" +:+ namespace c +:+ "/pods/" +:+ name;
       query := ∅;
       requestBody := nilBody |} nilSlot;
  mret err.

Definition GetJob (c : Client) (name : string) : M (Job * option error) :=
  _ ← log c "GetJob" [AString name];
  let retJob : Job := zero in
  '(slot, err) ← request c
    {| method := MethodGet;
       path := "/apis/batch/v1/namespaces/" +:+ namespace c +:+ "/jobs/" +:+ name;
       query := ∅;
       requestBody := nilBody |} (Some retJob);
  mret (default retJob slot, err).

Definition ListJobs (c : Client) (labels : gmap string string)
  : M (list Job * option error) :=
  _ ← log c "ListJobs" [ALabels labels];
  let jl : ItemList Job := zero in
  '(slot, err) ← request c
    {| method := MethodGet;
       path := "/apis/batch/v1/namespaces/" +:+ namespace c +:+ "/jobs";
       query := {[ "labelSelector"%string := labelsToSelector labels ]};
       requestBody := nilBody |} (Some jl);
  mret (Items (default jl slot), err).

Definition CreatePod (c : Client) (p : Pod) : M (Pod * option error) :=
  _ ← log c "CreatePod" [AValue p];
  let retPod : Pod := zero in
  '(slot, err) ← request c
    {| method := MethodPost;
       path := "/api/v1/namespaces/" +:+ namespace c +:+ "/pods";
       query := ∅;
       requestBody := Some p |} (Some retPod);
  mret (default retPod slot, err).

Definition CreateJob (c : Client) (j : Job) : M (Job * option error) :=
  _ ← log c "CreateJob" [AValue j];
  let retJob : Job := zero in
  '(slot, err) ← request c
    {| method := MethodPost;
       path := "/apis/batch/v1/namespaces/" +:+ namespace c +:+ "/jobs";
       query := ∅;
       requestBody := Some j |} (Some retJob);
  mret (default retJob slot, err).

Definition DeleteJob (c : Client) (name : string) : M (option error) :=
  _ ← log c "DeleteJob" [AString name];
  '(_, err) ← request c
    {| method := MethodDelete;
       path := "/apis/batch/v1/namespaces/" +:+ namespace c +:+ "/jobs/" +:+ name;
       query := ∅;
       requestBody := nilBody |} nilSlot;
  mret err.

Definition PatchJob (c : Client) (name : string) (job : Job)
  : M (Job * option error) :=
  _ ← log c "PatchJob" [AString name; AValue job];
  let retJob : Job := zero in
  '(slot, err) ← request c
    {| method := MethodPatch;
       path := "/apis/batch/v1/namespaces/" +:+ namespace c +:+ "/jobs/" +:+ name;
       query := ∅;
       requestBody := Some job |} (Some retJob);
  mret (default retJob slot, err).

Definition PatchJobStatus (c : Client) (name : string) (job : Job)
  : M (Job * option error) :=
  _ ← log c "PatchJobStatus" [AString name; AValue job];
  let retJob : Job := zero in
  '(slot, err) ← request c
    {| method := MethodPatch;
       path := "/apis/batch/v1/namespaces/" +:+ namespace c +:+ "/jobs/" +:+ name
               +:+ "/status";
       query := ∅;
       requestBody := Some job |} (Some retJob);
  mret (default retJob slot, err).

Definition ReplaceSecret (c : Client) (name : string) (s : Secret)
  : M (option error) :=
  _ ← log c "ReplaceSecret" [AString name];
  '(_, err) ← request c
    {| method := MethodPut;
       path := "/api/v1/namespaces/" +:+ namespace c +:+ "/secrets/" +:+ name;
       query := ∅;
       requestBody := Some s |} nilSlot;
  mret err.

Definition GetLog (c : Client) (pod : string) : M (option string * option error) :=
  _ ← log c "GetLog" [AString pod];
  requestRetry c
    {| method := MethodGet;
       path := "/api/v1/namespaces/" +:+ namespace c +:+ "/pods/" +:+ pod +:+ "/log";
       query := ∅;
       requestBody := nilBody |}.

End Resources.

End WithEnv.

(** *** Shapes of traces, for the statements below *)

(** The next backoff: [backoff *= 2] on an int64. *)
Definition double (backoff : Z) : Z := wrap64 (backoff * 2).

(** The events of [k] attempts in a row whose round trip fails, the first
    of them followed by a sleep of [backoff]. *)
Fixpoint failedAttempts (req : HttpRequest) (k : nat) (backoff : Z) : list Event :=
  match k with
  | O => []
  | S k' =>
      [EvDoRequest; EvRoundTrip req; EvSleep backoff]
        ++ failedAttempts req k' (double backoff)
  end.

(** The events of [k] attempts in a row that end before any I/O. *)
Fixpoint unsentAttempts (k : nat) (backoff : Z) : list Event :=
  match k with
  | O => []
  | S k' => [EvDoRequest; EvSleep backoff] ++ unsentAttempts k' (double backoff)
  end.

(** From [w] to [w'] no attempt was made, nothing went to the network and
    nothing slept. *)
Definition noTransport (w w' : World) : Prop :=
  attempts (trace w') = attempts (trace w)
  /\ roundTrips (trace w') = roundTrips (trace w)
  /\ sleeps (trace w') = sleeps (trace w)
  /\ sent w' = sent w.

(** The computation [m] returns [a] from every world, without transport. *)
Definition returnsQuietly {A} (m : M A) (a : A) : Prop :=
  forall w, exists w', m w = (Val a, w') /\ noTransport w w'.

(** The logger call that [log] makes, if any. *)
Definition logCall (env : Env) (c : Client) (methodName : string) (args : list any)
  : list Event :=
  match Logger c with
  | None => []
  | Some l => [EvPrintf l "%s(%s)" [methodName; Join (map (Sprintf_v env) args) ", "]]
  end.

Definition setLogger (l : option Effects.Logger) (c : Client) : Client :=
  {| Logger := l; baseURL := baseURL c; client := client c; token := token c;
     namespace := namespace c; fake := fake c |}.

Definition setToken (tok : string) (c : Client) : Client :=
  {| Logger := Logger c; baseURL := baseURL c; client := client c; token := tok;
     namespace := namespace c; fake := fake c |}.

(** [ioutil.ReadFile] fails on the file. *)
Definition unreadable (env : Env) (file : string) : Prop :=
  exists err, ReadFile env file = inl err.

(** No certificate is found in the file: the CA bundle does not parse. *)
Definition unparseable (env : Env) (file : string) : Prop :=
  exists data, ReadFile env file = inr data /\ ParseCerts env data = [].

(** The status is one of 200..299. *)
Definition is2xx (code : Z) : bool := (200 <=? code) && (code <=? 299).

(** *** Shapes of runs *)

Definition isClose (e : Event) : bool :=
  match e with EvClose => true | _ => false end.

(** How often a response body is closed in a trace. *)
Definition closes (tr : list Event) : nat := length (List.filter isClose tr).

(** The five ways a run of [requestRetry] from the world [w] can go, each
    with its result and the events it adds: the client is fake; the request
    cannot be built; the client has no [http.Client]; some attempt within
    the bound is answered; all attempts fail in the network. *)
Inductive RunShape (env : Env) {B : Type} `{Encodable B} (c : Client)
    (r : request_t B) (w : World)
  : Res (option string * option error) -> list Event -> Prop :=
| RunFake :
    fake c = true ->
    RunShape env c r w (Val (Some "{}"%string, None)) []
| RunUnsent (err : error) :
    fake c = false ->
    buildRequest env c (method r) (path r) (query r) (requestBody r) = inl err ->
    RunShape env c r w (Val (None, Some err)) (unsentAttempts maxRetries retryDelay)
| RunPanic (req : HttpRequest) :
    fake c = false ->
    buildRequest env c (method r) (path r) (query r) (requestBody r) = inr req ->
    client c = None ->
    RunShape env c r w (Panic "invalid memory address or nil pointer dereference")
             [EvDoRequest]
| RunAnswered (req : HttpRequest) (hc : httpClient) (k : nat) (resp : Response) :
    fake c = false ->
    buildRequest env c (method r) (path r) (query r) (requestBody r) = inr req ->
    client c = Some hc ->
    (k < maxRetries)%nat ->
    (forall i, (i < k)%nat -> exists err, Do env (sent w + i) req = inl err) ->
    Do env (sent w + k) req = inr resp ->
    RunShape env c r w (Val (interpret resp))
             (failedAttempts req k retryDelay ++ [EvDoRequest; EvRoundTrip req; EvClose])
| RunExhausted (req : HttpRequest) (hc : httpClient) (errs : nat -> error) :
    fake c = false ->
    buildRequest env c (method r) (path r) (query r) (requestBody r) = inr req ->
    client c = Some hc ->
    (forall i, (i < maxRetries)%nat -> Do env (sent w + i) req = inl (errs i)) ->
    RunShape env c r w (Val (None, Some (errs (maxRetries - 1)%nat)))
             (failedAttempts req maxRetries retryDelay).

(** The events of one attempt: the entry into [doRequest], and after it,
    before the next entry, at most one round trip and at most one sleep. *)
Definition attemptSegment (seg : list Event) : Prop :=
  exists tail,
    seg = EvDoRequest :: tail
    /\ attempts tail = 0%nat
    /\ (roundTrips tail <= 1)%nat
    /\ (length (sleeps tail) <= 1)%nat.

(** The computation [m] returns from every world, with a value. *)
Definition neverPanics {A} (m : M A) : Prop :=
  forall w, exists a w', m w = (Val a, w').

(** From every world, the computation [m] first makes the logger call of
    [log c methodName args] and logs nothing after it. *)
Definition logsFirst {A} (env : Env) (c : Client) (methodName : string)
    (args : list any) (m : M A) : Prop :=
  forall w, exists evs,
    trace (m w).2 = trace w ++ logCall env c methodName args ++ evs
    /\ logged evs = [].

(** The world [env] with another order of visiting maps. *)
Definition setRangeOrder (order : gmap string string -> list (string * string))
    (env : Env) : Env :=
  {| NewRequest := NewRequest env;
     ParseQuery := ParseQuery env;
     Encode := Encode env;
     Do := Do env;
     ReadFile := ReadFile env;
     ParseCerts := ParseCerts env;
     rangeOrder := order;
     fmtLabels := fmtLabels env |}.

End Kube.

(** ** Concrete worlds and types, to run the code on *)

Module Fixtures.

Import Go Json Net Effects Kube.

(** A struct with one string field, [Name string `json:"name"`]. *)
Record Named := mkNamed { Name : string }.

#[export] Instance Named_Decodable : Decodable Named :=
  {| zero := mkNamed EmptyString;
     setField := fun k v t =>
       if foldEq k "name" then
         match v with
         | Str s => (mkNamed s, None)
         | Null => (t, None)
         | _ => (t, Some (UnmarshalTypeError
                            "json: cannot unmarshal a non-string into a Go string"))
         end
       else (t, None) |}.

#[export] Instance Named_Encodable : Encodable Named :=
  {| Marshal := fun t =>
       inr ("{" +:+ quote +:+ "name" +:+ quote +:+ ":" +:+ encodeString (Name t)
            +:+ "}") |}.

#[export] Instance Named_Formatter : Formatter Named :=
  {| fmtV := fun t => "{" +:+ Name t +:+ "}" |}.

(** A value that [json.Marshal] refuses. *)
Record Unencodable := mkUnencodable { }.

Definition unsupported : error :=
  mkError (mkDynType "*json.UnsupportedTypeError" ["Error"%string])
          "json: unsupported type: chan int".

#[export] Instance Unencodable_Encodable : Encodable Unencodable :=
  {| Marshal := fun _ => inl unsupported |}.

(** A transport error. *)
Definition refused : error :=
  mkError (mkDynType "*url.Error" ["Error"; "Unwrap"; "Timeout"; "Temporary"]%string)
          "dial tcp: connection refused".

Definition noSuchFile : error :=
  mkError (mkDynType "*os.PathError" ["Error"; "Unwrap"; "Timeout"]%string)
          "open: no such file or directory".

Definition badURL : error :=
  mkError (mkDynType "*url.Error" ["Error"; "Unwrap"; "Timeout"; "Temporary"]%string)
          "parse: invalid URL escape".

(** A world whose network follows [net], with both service-account files in
    place: the token file holds [tok], the CA file holds [ca], in which the
    certificates [certs] are found. *)
Definition envOf (net : nat -> error + Response) (tok ca : string)
    (certs : list string) : Env :=
  {| NewRequest := fun method url body =>
       inr (mkHttpRequest method url EmptyString ∅ body);
     ParseQuery := fun _ => ∅;
     Encode := ValuesEncode;
     Do := fun n _ => net n;
     ReadFile := fun name =>
       if String.eqb name tokenFile then inr tok
       else if String.eqb name rootCAFile then inr ca
       else inl noSuchFile;
     ParseCerts := fun data => if String.eqb data ca then certs else [];
     rangeOrder := fun m => map_to_list m;
     fmtLabels := fun m =>
       "map[" +:+ Join (map (fun kv => kv.1 +:+ ":" +:+ kv.2) (map_to_list m)) " "
       +:+ "]" |}.

(** The same, but [http.NewRequest] refuses every URL. *)
Definition envBadURL : Env :=
  {| NewRequest := fun _ _ _ => inl badURL;
     ParseQuery := fun _ => ∅;
     Encode := fun _ => EmptyString;
     Do := fun _ _ => inl refused;
     ReadFile := fun _ => inl noSuchFile;
     ParseCerts := fun _ => [];
     rangeOrder := fun m => map_to_list m;
     fmtLabels := fun _ => EmptyString |}.

(** Networks: always down; down [k] times and then answering [resp]. *)
Definition down : nat -> error + Response := fun _ => inl refused.

Definition downThen (k : nat) (resp : Response) : nat -> error + Response :=
  fun n => if (n <? k)%nat then inl refused else inr resp.

Definition env1 (net : nat -> error + Response) : Env :=
  envOf net "token" "PEM" ["cert"%string].

(** A client as [NewClientInCluster] builds it. *)
Definition realClient : Client :=
  {| Logger := Some 0%nat;
     baseURL := inClusterBaseURL;
     client := Some {| TLSClientConfig :=
                         Some {| MinVersion := VersionTLS12; RootCAs := ["cert"%string] |} |};
     token := "token";
     namespace := "ns";
     fake := false |}.

Definition getReq : request_t emptyStruct :=
  {| method := MethodGet; path := "/api/v1/namespaces/ns/pods/p";
     query := ∅; requestBody := nilBody |}.

(** The request that [doRequest] sends for [getReq] on [realClient]. *)
Definition sentGet : HttpRequest :=
  {| Method := "GET";
     URL := "https://kubernetes/api/v1/namespaces/ns/pods/p";
     RawQuery := EmptyString;
     Header := HeaderSet (HeaderSet ∅ "Authorization" "Bearer token")
                         "Content-Type" "application/json";
     ReqBody := None |}.

(** The descriptor that [ListPods] makes for the one label a:1 in the
    namespace ns, and the request that [doRequest] sends for it: the
    selector is escaped in the query string. *)
Definition listReq : request_t emptyStruct :=
  {| method := MethodGet; path := "/api/v1/namespaces/ns/pods";
     query := {[ "labelSelector"%string := "a = 1"%string ]};
     requestBody := nilBody |}.

Definition sentList : HttpRequest :=
  {| Method := "GET";
     URL := "https://kubernetes/api/v1/namespaces/ns/pods";
     RawQuery := "labelSelector=a+%3D+1";
     Header := HeaderSet (HeaderSet ∅ "Authorization" "Bearer token")
                         "Content-Type" "application/json";
     ReqBody := None |}.

Definition resp200 (body : string) : Response :=
  {| StatusCode := 200; Status := "200 OK"; Body := inr body |}.
Definition resp409 (body : string) : Response :=
  {| StatusCode := 409; Status := "409 Conflict"; Body := inr body |}.
Definition resp500 (body : string) : Response :=
  {| StatusCode := 500; Status := "500 Internal Server Error"; Body := inr body |}.

Definition resp404 (body : string) : Response :=
  {| StatusCode := 404; Status := "404 Not Found"; Body := inr body |}.

(** A read of the response body that breaks off. *)
Definition unexpectedEOF : error :=
  mkError (mkDynType "*errors.errorString" ["Error"%string]) "unexpected EOF".

(** A response whose body cannot be read to its end. *)
Definition respBroken (code : Z) (status : string) : Response :=
  {| StatusCode := code; Status := status; Body := inl unexpectedEOF |}.

(** A world whose server answers every request with a 200 that echoes the
    body of the request. *)
Definition envEcho : Env :=
  {| NewRequest := fun method url body =>
       inr (mkHttpRequest method url EmptyString ∅ body);
     ParseQuery := fun _ => ∅;
     Encode := fun _ => EmptyString;
     Do := fun _ req =>
       inr {| StatusCode := 200; Status := "200 OK";
              Body := inr (default EmptyString (ReqBody req)) |};
     ReadFile := fun _ => inl noSuchFile;
     ParseCerts := fun _ => [];
     rangeOrder := fun m => map_to_list m;
     fmtLabels := fun _ => EmptyString |}.

(** A client with neither the fake flag nor an [http.Client], as the zero
    value [Client{}] is. *)
Definition bareClient : Client :=
  {| Logger := None; baseURL := EmptyString; client := None;
     token := EmptyString; namespace := EmptyString; fake := false |}.

End Fixtures.

(** * Properties *)

Import Go Json Net Effects Kube Fixtures.

(** ** The code on small inputs *)

Example parse_empty_object : parse "{}" = Some (Object []).
Proof. reflexivity. Qed.

Example parse_nothing : parse EmptyString = None.
Proof. reflexivity. Qed.

Example parse_array :
  parse " [1, -2.5e3, true, null, {}] "
  = Some (Array [Number "1"; Number "-2.5e3"; Bool true; Null; Object []]).
Proof. reflexivity. Qed.

Example parse_trailing : parse "{} x" = None.
Proof. reflexivity. Qed.

Example parse_leading_zero : parse "01" = None.
Proof. reflexivity. Qed.

Example Unmarshal_name :
  Unmarshal ("{" +:+ quote +:+ "Name" +:+ quote +:+ ":" +:+ quote +:+ "p1" +:+ quote
             +:+ "}") (mkNamed "old")
  = (mkNamed "p1", None).
Proof. reflexivity. Qed.

Example Unmarshal_items :
  Unmarshal ("{" +:+ quote +:+ "items" +:+ quote +:+ ":[{},{" +:+ quote +:+ "name"
             +:+ quote +:+ ":" +:+ quote +:+ "b" +:+ quote +:+ "}]}")
            (zero : ItemList Named)
  = (mkItemList [mkNamed EmptyString; mkNamed "b"], None).
Proof. reflexivity. Qed.

Example scan_escapes :
  scan (quote +:+ "a\tbA\/\\" +:+ quote)
  = Scanned (Str ("a" +:+ String "009" "bA/\")) EmptyString.
Proof. reflexivity. Qed.

Example scan_surrogate_pair :
  scan (quote +:+ "\ud83d\ude00" +:+ quote) = Scanned (Str (EncodeRune 128512)) EmptyString
  /\ scan (quote +:+ "\ud83d!" +:+ quote)
     = Scanned (Str (EncodeRune 65533 +:+ "!")) EmptyString.
Proof. split; reflexivity. Qed.

Example scan_bad_escape :
  scan ("{" +:+ quote +:+ "name" +:+ quote +:+ ":" +:+ quote +:+ "\q" +:+ quote +:+ "}")
  = Invalid "q" "in string escape code".
Proof. reflexivity. Qed.

Example syntax_error_texts :
  syntaxErrorText (scan "tru") = "unexpected end of JSON input"%string
  /\ syntaxErrorText (scan "[1,]")
     = "invalid character ']' looking for beginning of value"%string
  /\ syntaxErrorText (scan "<html>")
     = "invalid character '<' looking for beginning of value"%string
  /\ syntaxErrorText (scan "01")
     = "invalid character '1' after top-level value"%string.
Proof. repeat split. Qed.

Example Marshal_escapes :
  Marshal (mkNamed ("a" +:+ quote +:+ "b\<" +:+ String "010" EmptyString))
  = inr ("{" +:+ quote +:+ "name" +:+ quote +:+ ":" +:+ quote
         +:+ "a\" +:+ quote +:+ "b\\\u003c\n" +:+ quote +:+ "}").
Proof. reflexivity. Qed.

Example Named_round_trip :
  match Marshal (mkNamed ("a" +:+ quote +:+ "b\<" +:+ String "010" EmptyString)) with
  | inr bs => Unmarshal bs (zero : Named)
  | inl _ => (zero, None)
  end
  = (mkNamed ("a" +:+ quote +:+ "b\<" +:+ String "010" EmptyString), None).
Proof. reflexivity. Qed.

Example QueryEscape_selector : QueryEscape "a = 1,b~2/x" = "a+%3D+1%2Cb~2%2Fx"%string.
Proof. reflexivity. Qed.

Example ValuesEncode_sorted :
  ValuesEncode (<["watch"%string := ["true"%string]]>
                  (<["labelSelector"%string := ["a = 1"; "b"]%string]> ∅))
  = "labelSelector=a+%3D+1&labelSelector=b&watch=true"%string.
Proof. reflexivity. Qed.

Example buildRequest_list :
  buildRequest (env1 down) realClient (method listReq) (path listReq) (query listReq)
               (requestBody listReq)
  = inr sentList.
Proof. reflexivity. Qed.

Example Join_three : Join ["a"; "b"; "c"]%string ", " = "a, b, c"%string.
Proof. reflexivity. Qed.

Example wrap64_overflow : wrap64 (2 ^ 63) = - 2 ^ 63.
Proof. reflexivity. Qed.

Example interpret_409 :
  interpret (resp409 "stale") = (None, Some (Errorf "body: stale")).
Proof. reflexivity. Qed.

Example interpret_204 :
  interpret {| StatusCode := 204; Status := "204 No Content"; Body := inr EmptyString |}
  = (Some EmptyString, None).
Proof. reflexivity. Qed.

Example buildRequest_get :
  buildRequest (env1 down) realClient MethodGet (path getReq) ∅ nilBody = inr sentGet.
Proof. reflexivity. Qed.

Example buildRequest_patch_content_type :
  match buildRequest (env1 down) realClient MethodPatch "/apis/batch/v1/namespaces/ns/jobs/j"
                     ∅ (Some (mkNamed "j")) with
  | inr req => Header req !! "Content-Type"%string
  | inl _ => None
  end
  = Some ["application/strategic-merge-patch+json"%string].
Proof. reflexivity. Qed.

Example requestRetry_bad_url :
  (requestRetry envBadURL realClient getReq world0).1 = Val (None, Some badURL)
  /\ roundTrips (trace (requestRetry envBadURL realClient getReq world0).2) = 0%nat.
Proof. split; reflexivity. Qed.

Example GetPod_fake_logged :
  GetPod (Pod:=Named) (env1 down) (setLogger (Some 1%nat) NewFakeClient) "p" world0
  = (Val (mkNamed EmptyString, None),
     mkWorld [EvPrintf 1%nat "%s(%s)" ["GetPod"; "p"]%string] 0).
Proof. reflexivity. Qed.

Example GetPod_answered :
  (GetPod (Pod:=Named)
          (env1 (downThen 1 (resp200 ("{" +:+ quote +:+ "name" +:+ quote +:+ ":"
                                      +:+ quote +:+ "p" +:+ quote +:+ "}"))))
          realClient "p" world0).1
  = Val (mkNamed "p", None).
Proof. reflexivity. Qed.

Example NewClientInCluster_no_token :
  NewClientInCluster envBadURL "ns" = (None, Some noSuchFile).
Proof. reflexivity. Qed.

(** ** One attempt, and the retry loop unrolled *)

Section RetryLoop.

Context (env : Env) {B : Type} `{Encodable B}.
Variables (c : Client) (r : request_t B).

Lemma app_one_two {A} (l : list A) (a b : A) : (l ++ [a]) ++ [b] = l ++ [a; b].
Proof. now rewrite <- app_assoc. Qed.

(** An attempt whose request cannot be built ends before any I/O. *)
Lemma doRequest_unsent (err : error) (w : World) :
  buildRequest env c (method r) (path r) (query r) (requestBody r) = inl err ->
  doRequest env c (method r) (path r) (query r) (requestBody r) w
  = (Val (inl err), mkWorld (trace w ++ [EvDoRequest]) (sent w)).
Proof.
  intros Hb. unfold doRequest, mbind, M_bind, bind, emit, mret, M_ret, ret.
  cbn. now rewrite Hb.
Qed.

(** An attempt whose request is built makes exactly one round trip. *)
Lemma doRequest_sent (req : HttpRequest) (hc : httpClient) (w : World) :
  buildRequest env c (method r) (path r) (query r) (requestBody r) = inr req ->
  client c = Some hc ->
  doRequest env c (method r) (path r) (query r) (requestBody r) w
  = (Val (Do env (sent w) req),
     mkWorld (trace w ++ [EvDoRequest; EvRoundTrip req]) (S (sent w))).
Proof.
  intros Hb Hc. unfold doRequest, mbind, M_bind, bind, emit, roundTrip.
  cbn. rewrite Hb, Hc. cbn. now rewrite app_one_two.
Qed.

(** [n] attempts that all end before I/O: the loop runs to its bound. *)
Lemma retryLoop_unsent (err : error) :
  buildRequest env c (method r) (path r) (query r) (requestBody r) = inl err ->
  forall (n : nat) (backoff : Z) (st : option Response * option error) (w : World),
    retryLoop env c r n backoff st w
    = (Val (match n with O => st | S _ => (None, Some err) end),
       mkWorld (trace w ++ unsentAttempts n backoff) (sent w)).
Proof.
  intros Hb. induction n as [|n IH]; intros backoff st w.
  - cbn. rewrite app_nil_r. now destruct w.
  - cbn [retryLoop]. unfold mbind, M_bind, bind at 1.
    rewrite (doRequest_unsent err w Hb).
    unfold bind, emit. cbn [trace sent].
    rewrite IH. cbn [trace sent unsentAttempts].
    rewrite app_one_two, <- app_assoc. cbn [app].
    now destruct n.
Qed.

(** [n] attempts whose round trips all fail: the loop runs to its bound and
    keeps the last error. *)
Lemma retryLoop_all_fail (req : HttpRequest) (hc : httpClient) :
  buildRequest env c (method r) (path r) (query r) (requestBody r) = inr req ->
  client c = Some hc ->
  forall (n : nat) (errs : nat -> error) (backoff : Z)
         (st : option Response * option error) (w : World),
    (forall i, (i < n)%nat -> Do env (sent w + i) req = inl (errs i)) ->
    retryLoop env c r n backoff st w
    = (Val (match n with O => st | S n' => (None, Some (errs n')) end),
       mkWorld (trace w ++ failedAttempts req n backoff) (sent w + n)).
Proof.
  intros Hb Hc. induction n as [|n IH]; intros errs backoff st w Hfail.
  - cbn. rewrite app_nil_r, Nat.add_0_r. now destruct w.
  - cbn [retryLoop]. unfold mbind, M_bind, bind at 1.
    rewrite (doRequest_sent req hc w Hb Hc).
    specialize (Hfail 0%nat ltac:(lia)) as H0. rewrite Nat.add_0_r in H0. rewrite H0.
    unfold bind, emit. cbn [trace sent].
    rewrite (IH (fun i => errs (S i))).
    + cbn [trace sent failedAttempts].
      rewrite <- !app_assoc. cbn [app].
      replace (S (sent w) + n)%nat with (sent w + S n)%nat by lia.
      now destruct n.
    + intros i Hi. cbn [sent].
      replace (S (sent w) + i)%nat with (sent w + S i)%nat by lia.
      apply Hfail. lia.
Qed.

(** [k] failed round trips and then an answer, within the bound: the loop
    stops at the answer. *)
Lemma retryLoop_fail_then_answer (req : HttpRequest) (hc : httpClient)
    (resp : Response) :
  buildRequest env c (method r) (path r) (query r) (requestBody r) = inr req ->
  client c = Some hc ->
  forall (k n : nat) (backoff : Z) (st : option Response * option error) (w : World),
    (k < n)%nat ->
    (forall i, (i < k)%nat -> exists err, Do env (sent w + i) req = inl err) ->
    Do env (sent w + k) req = inr resp ->
    retryLoop env c r n backoff st w
    = (Val (Some resp, None),
       mkWorld (trace w ++ failedAttempts req k backoff
                        ++ [EvDoRequest; EvRoundTrip req])
               (sent w + k + 1)).
Proof.
  intros Hb Hc. induction k as [|k IH]; intros n backoff st w Hlt Hfail Hok.
  - destruct n as [|n]; [lia|].
    cbn [retryLoop]. unfold mbind, M_bind, bind at 1.
    rewrite (doRequest_sent req hc w Hb Hc).
    rewrite Nat.add_0_r in Hok. rewrite Hok. cbn.
    now replace (sent w + 0 + 1)%nat with (S (sent w)) by lia.
  - destruct n as [|n]; [lia|].
    cbn [retryLoop]. unfold mbind, M_bind, bind at 1.
    rewrite (doRequest_sent req hc w Hb Hc).
    destruct (Hfail 0%nat ltac:(lia)) as [err H0].
    rewrite Nat.add_0_r in H0. rewrite H0.
    unfold bind, emit. cbn [trace sent].
    rewrite (IH n); cbn [trace sent].
    + cbn [failedAttempts]. rewrite <- !app_assoc. cbn [app].
      now replace (S (sent w) + k + 1)%nat with (sent w + S k + 1)%nat by lia.
    + lia.
    + intros i Hi.
      replace (S (sent w) + i)%nat with (sent w + S i)%nat by lia.
      apply Hfail. lia.
    + now replace (S (sent w) + k)%nat with (sent w + S k)%nat by lia.
Qed.

End RetryLoop.

(** ** Counting over traces *)

Lemma append_assoc (a b d : string) : (a +:+ b) +:+ d = a +:+ (b +:+ d).
Proof.
  induction a as [|x a IH]; [reflexivity|].
  change (String x ((a +:+ b) +:+ d) = String x (a +:+ (b +:+ d))).
  now rewrite IH.
Qed.

Lemma attempts_app (l l' : list Event) :
  attempts (l ++ l') = (attempts l + attempts l')%nat.
Proof. unfold attempts. now rewrite List.filter_app, length_app. Qed.

Lemma roundTrips_app (l l' : list Event) :
  roundTrips (l ++ l') = (roundTrips l + roundTrips l')%nat.
Proof. unfold roundTrips. now rewrite List.filter_app, length_app. Qed.

Lemma sleeps_app (l l' : list Event) : sleeps (l ++ l') = sleeps l ++ sleeps l'.
Proof. unfold sleeps. apply flat_map_app. Qed.

Lemma logged_app (l l' : list Event) : logged (l ++ l') = logged l ++ logged l'.
Proof. unfold logged. apply List.filter_app. Qed.

Lemma attempts_failedAttempts (req : HttpRequest) (k : nat) (backoff : Z) :
  attempts (failedAttempts req k backoff) = k.
Proof.
  revert backoff. induction k as [|k IH]; intros backoff; [reflexivity|].
  cbn [failedAttempts]. rewrite attempts_app, IH. reflexivity.
Qed.

Lemma roundTrips_failedAttempts (req : HttpRequest) (k : nat) (backoff : Z) :
  roundTrips (failedAttempts req k backoff) = k.
Proof.
  revert backoff. induction k as [|k IH]; intros backoff; [reflexivity|].
  cbn [failedAttempts]. rewrite roundTrips_app, IH. reflexivity.
Qed.

Lemma sleeps_failedAttempts (req : HttpRequest) (k : nat) (backoff : Z) :
  sleeps (failedAttempts req k backoff)
  = map (fun i => Nat.iter i double backoff) (seq 0 k).
Proof.
  revert backoff. induction k as [|k IH]; intros backoff; [reflexivity|].
  cbn [failedAttempts]. rewrite sleeps_app, IH. cbn [sleeps flat_map app seq map Nat.iter].
  f_equal. rewrite <- seq_shift, map_map. apply map_ext. intros i.
  now rewrite Nat.iter_succ_r.
Qed.

Lemma logged_failedAttempts (req : HttpRequest) (k : nat) (backoff : Z) :
  logged (failedAttempts req k backoff) = [].
Proof.
  revert backoff. induction k as [|k IH]; intros backoff; [reflexivity|].
  cbn [failedAttempts]. rewrite logged_app, IH. reflexivity.
Qed.

Lemma attempts_unsentAttempts (k : nat) (backoff : Z) :
  attempts (unsentAttempts k backoff) = k.
Proof.
  revert backoff. induction k as [|k IH]; intros backoff; [reflexivity|].
  cbn [unsentAttempts]. rewrite attempts_app, IH. reflexivity.
Qed.

Lemma roundTrips_unsentAttempts (k : nat) (backoff : Z) :
  roundTrips (unsentAttempts k backoff) = 0%nat.
Proof.
  revert backoff. induction k as [|k IH]; intros backoff; [reflexivity|].
  cbn [unsentAttempts]. rewrite roundTrips_app, IH. reflexivity.
Qed.

(** Within the bound, the backoff never wraps: the [i]-th sleep lasts
    [2^i] times [retryDelay]. *)
Lemma backoff_doubles (i : nat) :
  (i <= maxRetries)%nat -> Nat.iter i double retryDelay = 2 ^ Z.of_nat i * retryDelay.
Proof.
  unfold maxRetries. intros Hi.
  do 9 (destruct i as [|i]; [reflexivity|]). lia.
Qed.

(** ** [requestRetry] on the three kinds of run *)

Section RequestRetry.

Context (env : Env) {B : Type} `{Encodable B}.
Variables (c : Client) (r : request_t B).

Lemma requestRetry_fake (w : World) :
  fake c = true -> requestRetry env c r w = (Val (Some "{}"%string, None), w).
Proof. intros Hf. unfold requestRetry. now rewrite Hf. Qed.

Lemma requestRetry_unsent (err : error) (w : World) :
  fake c = false ->
  buildRequest env c (method r) (path r) (query r) (requestBody r) = inl err ->
  requestRetry env c r w
  = (Val (None, Some err),
     mkWorld (trace w ++ unsentAttempts maxRetries retryDelay) (sent w)).
Proof.
  intros Hf Hb. unfold requestRetry. rewrite Hf.
  unfold mbind, M_bind, bind. now rewrite (retryLoop_unsent env c r err Hb).
Qed.

Lemma requestRetry_all_fail (req : HttpRequest) (hc : httpClient)
    (errs : nat -> error) (w : World) :
  fake c = false ->
  client c = Some hc ->
  buildRequest env c (method r) (path r) (query r) (requestBody r) = inr req ->
  (forall i, (i < maxRetries)%nat -> Do env (sent w + i) req = inl (errs i)) ->
  requestRetry env c r w
  = (Val (None, Some (errs 7%nat)),
     mkWorld (trace w ++ failedAttempts req maxRetries retryDelay)
             (sent w + maxRetries)).
Proof.
  intros Hf Hc Hb Hfail. unfold requestRetry. rewrite Hf.
  unfold mbind, M_bind, bind.
  now rewrite (retryLoop_all_fail env c r req hc Hb Hc maxRetries errs _ _ w Hfail).
Qed.

Lemma requestRetry_fail_then_answer (req : HttpRequest) (hc : httpClient)
    (resp : Response) (k : nat) (w : World) :
  fake c = false ->
  client c = Some hc ->
  buildRequest env c (method r) (path r) (query r) (requestBody r) = inr req ->
  (k < maxRetries)%nat ->
  (forall i, (i < k)%nat -> exists err, Do env (sent w + i) req = inl err) ->
  Do env (sent w + k) req = inr resp ->
  requestRetry env c r w
  = (Val (interpret resp),
     mkWorld (trace w ++ failedAttempts req k retryDelay
                      ++ [EvDoRequest; EvRoundTrip req; EvClose])
             (sent w + k + 1)).
Proof.
  intros Hf Hc Hb Hk Hfail Hok. unfold requestRetry. rewrite Hf.
  unfold mbind, M_bind, bind.
  rewrite (retryLoop_fail_then_answer env c r req hc resp Hb Hc k maxRetries _ _ w
             Hk Hfail Hok).
  unfold emit. cbn [trace sent]. do 2 f_equal.
  rewrite <- !app_assoc. reflexivity.
Qed.

End RequestRetry.

(** ** The retry policy *)

(** C5. When every attempt fails in the network, [requestRetry] makes
    exactly 8 attempts, each with one round trip, and then returns the
    error of the last attempt as it is, with a nil byte payload. *)
Theorem requestRetry_exhausts_on_transport_failure
    (env : Env) {B : Type} `{Encodable B} (c : Client) (r : request_t B)
    (req : HttpRequest) (hc : httpClient) (errs : nat -> error) (w : World) :
  fake c = false ->
  client c = Some hc ->
  buildRequest env c (method r) (path r) (query r) (requestBody r) = inr req ->
  (forall i, (i < maxRetries)%nat -> Do env (sent w + i) req = inl (errs i)) ->
  exists w',
    requestRetry env c r w = (Val (None, Some (errs (maxRetries - 1)%nat)), w')
    /\ attempts (trace w') = (attempts (trace w) + 8)%nat
    /\ roundTrips (trace w') = (roundTrips (trace w) + 8)%nat
    /\ sent w' = (sent w + 8)%nat.
Proof.
  intros Hf Hc Hb Hfail. eexists. split.
  - apply (requestRetry_all_fail env c r req hc errs w Hf Hc Hb Hfail).
  - cbn [trace sent]. rewrite attempts_app, roundTrips_app.
    now rewrite attempts_failedAttempts, roundTrips_failedAttempts.
Qed.

Lemma requestRetry_exhausts_on_transport_failure_witness :
  exists w',
    requestRetry (Fixtures.env1 Fixtures.down) Fixtures.realClient Fixtures.getReq world0
    = (Val (None, Some Fixtures.refused), w')
    /\ attempts (trace w') = 8%nat
    /\ roundTrips (trace w') = 8%nat
    /\ sent w' = 8%nat.
Proof.
  eapply (requestRetry_exhausts_on_transport_failure
            (Fixtures.env1 Fixtures.down) Fixtures.realClient Fixtures.getReq
            _ _ (fun _ => Fixtures.refused) world0).
  - reflexivity.
  - reflexivity.
  - reflexivity.
  - intros i _. reflexivity.
Defined.

(** C4. The sleeps do not all lie between attempts: when all 8 attempts fail
    in the network, each of them is followed by a sleep, the 8th too, so
    that the call sleeps 256 s after its final attempt before it returns the
    error. *)
Theorem requestRetry_sleeps_after_final_attempt
    (env : Env) {B : Type} `{Encodable B} (c : Client) (r : request_t B)
    (req : HttpRequest) (hc : httpClient) (errs : nat -> error) (w : World) :
  fake c = false ->
  client c = Some hc ->
  buildRequest env c (method r) (path r) (query r) (requestBody r) = inr req ->
  (forall i, (i < maxRetries)%nat -> Do env (sent w + i) req = inl (errs i)) ->
  exists (pre : list Event) (w' : World),
    requestRetry env c r w = (Val (None, Some (errs 7%nat)), w')
    /\ trace w' = trace w ++ pre ++ [EvDoRequest; EvRoundTrip req; EvSleep (256 * Second)]
    /\ attempts pre = 7%nat
    /\ sleeps (pre ++ [EvDoRequest; EvRoundTrip req; EvSleep (256 * Second)])
       = map (fun s => s * Second) [2; 4; 8; 16; 32; 64; 128; 256].
Proof.
  intros Hf Hc Hb Hfail.
  exists (failedAttempts req 7 retryDelay). eexists. split.
  - apply (requestRetry_all_fail env c r req hc errs w Hf Hc Hb Hfail).
  - cbn [trace]. repeat split.
Qed.

Lemma requestRetry_sleeps_after_final_attempt_witness :
  exists (pre : list Event) (w' : World),
    requestRetry (Fixtures.env1 Fixtures.down) Fixtures.realClient Fixtures.getReq world0
    = (Val (None, Some Fixtures.refused), w')
    /\ trace w'
       = trace world0 ++ pre
         ++ [EvDoRequest; EvRoundTrip Fixtures.sentGet; EvSleep (256 * Second)]
    /\ attempts pre = 7%nat
    /\ sleeps (pre ++ [EvDoRequest; EvRoundTrip Fixtures.sentGet; EvSleep (256 * Second)])
       = map (fun s => s * Second) [2; 4; 8; 16; 32; 64; 128; 256].
Proof.
  eapply (requestRetry_sleeps_after_final_attempt
            (Fixtures.env1 Fixtures.down) Fixtures.realClient Fixtures.getReq
            Fixtures.sentGet _ (fun _ => Fixtures.refused) world0).
  - reflexivity.
  - reflexivity.
  - reflexivity.
  - intros i _. reflexivity.
Defined.

(** When [k < 8] attempts fail in the network and the next one is answered,
    there are [k + 1] attempts and [k] sleeps, of [2 s], [4 s], ... in this
    order, each between two attempts. *)
Lemma requestRetry_sleeps_between_attempts
    (env : Env) {B : Type} `{Encodable B} (c : Client) (r : request_t B)
    (req : HttpRequest) (hc : httpClient) (resp : Response) (k : nat) (w : World) :
  fake c = false ->
  client c = Some hc ->
  buildRequest env c (method r) (path r) (query r) (requestBody r) = inr req ->
  (k < maxRetries)%nat ->
  (forall i, (i < k)%nat -> exists err, Do env (sent w + i) req = inl err) ->
  Do env (sent w + k) req = inr resp ->
  exists evs,
    trace (requestRetry env c r w).2 = trace w ++ evs
    /\ attempts evs = (k + 1)%nat
    /\ sleeps evs = map (fun i => 2 ^ Z.of_nat i * retryDelay) (seq 0 k)
    /\ last evs = Some EvClose.
Proof.
  intros Hf Hc Hb Hk Hfail Hok.
  rewrite (requestRetry_fail_then_answer env c r req hc resp k w Hf Hc Hb Hk Hfail Hok).
  eexists. cbn [snd trace]. split; [reflexivity|]. repeat split.
  - rewrite attempts_app, attempts_failedAttempts. reflexivity.
  - rewrite sleeps_app, sleeps_failedAttempts. cbn [sleeps flat_map app].
    rewrite app_nil_r. apply map_ext_in. intros i Hi. apply in_seq in Hi.
    apply backoff_doubles. lia.
  - now rewrite !last_app.
Qed.

(** C6. An HTTP status never causes a retry: as soon as an attempt is
    answered, whatever the status and however many attempts are left, the
    loop stops, and the call returns what the interpreter makes of that
    response. A 409 gives [ConflictError] on the body text; a 500 gives the
    generic error, which is not that of a 409: its text is the status line
    and the body, each between quotes. *)
Theorem requestRetry_returns_first_response
    (env : Env) {B : Type} `{Encodable B} (c : Client) (r : request_t B)
    (req : HttpRequest) (hc : httpClient) (resp : Response) (k : nat) (w : World) :
  fake c = false ->
  client c = Some hc ->
  buildRequest env c (method r) (path r) (query r) (requestBody r) = inr req ->
  (k < maxRetries)%nat ->
  (forall i, (i < k)%nat -> exists err, Do env (sent w + i) req = inl err) ->
  Do env (sent w + k) req = inr resp ->
  exists w',
    requestRetry env c r w = (Val (interpret resp), w')
    /\ trace w' = trace w ++ failedAttempts req k retryDelay
                         ++ [EvDoRequest; EvRoundTrip req; EvClose]
    /\ attempts (trace w') = (attempts (trace w) + k + 1)%nat
    /\ roundTrips (trace w') = (roundTrips (trace w) + k + 1)%nat
    /\ (forall body, StatusCode resp = 409 -> Body resp = inr body ->
        interpret resp = (None, Some (ConflictError (Errorf ("body: " +:+ body)))))
    /\ (forall body, StatusCode resp = 500 -> Body resp = inr body ->
        interpret resp
        = (None, Some (Errorf ("response has status " +:+ quote +:+ Status resp
                               +:+ quote +:+ " and body " +:+ quote +:+ body
                               +:+ quote)))
        /\ contains ("response has status " +:+ quote +:+ Status resp +:+ quote
                     +:+ " and body " +:+ quote +:+ body +:+ quote) body
        /\ interpret resp
           <> (None, Some (ConflictError (Errorf ("body: " +:+ body))))).
Proof.
  intros Hf Hc Hb Hk Hfail Hok. eexists. split.
  - apply (requestRetry_fail_then_answer env c r req hc resp k w Hf Hc Hb Hk Hfail Hok).
  - cbn [trace]. split; [reflexivity|].
    rewrite !attempts_app, !roundTrips_app,
      attempts_failedAttempts, roundTrips_failedAttempts.
    split; [cbn; lia|]. split; [cbn; lia|]. split.
    + intros body Hs Hbody. unfold interpret. now rewrite Hbody, Hs.
    + intros body Hs Hbody. unfold interpret. rewrite Hbody, Hs.
      cbn [Z.eqb Z.ltb Z.gtb Z.compare Pos.eqb Pos.compare Pos.compare_cont orb].
      split; [reflexivity|]. split.
      * exists ("response has status " +:+ quote +:+ Status resp +:+ quote
                +:+ " and body " +:+ quote), quote.
        now rewrite !append_assoc.
      * intros Heq. inversion Heq.
Qed.

Lemma requestRetry_returns_first_response_witness :
  exists w',
    requestRetry (Fixtures.env1 (Fixtures.downThen 2 (Fixtures.resp500 "boom")))
                 Fixtures.realClient Fixtures.getReq world0
    = (Val (interpret (Fixtures.resp500 "boom")), w')
    /\ trace w' = trace world0 ++ failedAttempts Fixtures.sentGet 2 retryDelay
                         ++ [EvDoRequest; EvRoundTrip Fixtures.sentGet; EvClose]
    /\ attempts (trace w') = (attempts (trace world0) + 2 + 1)%nat
    /\ roundTrips (trace w') = (roundTrips (trace world0) + 2 + 1)%nat
    /\ (forall body, StatusCode (Fixtures.resp500 "boom") = 409 ->
        Body (Fixtures.resp500 "boom") = inr body ->
        interpret (Fixtures.resp500 "boom")
        = (None, Some (ConflictError (Errorf ("body: " +:+ body)))))
    /\ (forall body, StatusCode (Fixtures.resp500 "boom") = 500 ->
        Body (Fixtures.resp500 "boom") = inr body ->
        interpret (Fixtures.resp500 "boom")
        = (None, Some (Errorf ("response has status " +:+ quote
                               +:+ Status (Fixtures.resp500 "boom")
                               +:+ quote +:+ " and body " +:+ quote +:+ body
                               +:+ quote)))
        /\ contains ("response has status " +:+ quote
                     +:+ Status (Fixtures.resp500 "boom") +:+ quote
                     +:+ " and body " +:+ quote +:+ body +:+ quote) body
        /\ interpret (Fixtures.resp500 "boom")
           <> (None, Some (ConflictError (Errorf ("body: " +:+ body))))).
Proof.
  eapply (requestRetry_returns_first_response
            (Fixtures.env1 (Fixtures.downThen 2 (Fixtures.resp500 "boom")))
            Fixtures.realClient Fixtures.getReq Fixtures.sentGet _
            (Fixtures.resp500 "boom") 2 world0).
  - reflexivity.
  - reflexivity.
  - reflexivity.
  - unfold maxRetries. lia.
  - intros i Hi. exists Fixtures.refused.
    destruct i as [|[|i]]; [reflexivity | reflexivity | lia].
  - reflexivity.
Defined.

(** C10. A request that cannot be built (the body does not marshal, or
    [http.NewRequest] refuses it) is retried like a transport failure: 8
    attempts, a sleep of 2 s, 4 s, ..., 256 s after each, nothing sent to
    the network, and the construction error returned at the end. *)
Theorem requestRetry_retries_construction_failure
    (env : Env) {B : Type} `{Encodable B} (c : Client) (r : request_t B)
    (err : error) (w : World) :
  fake c = false ->
  (exists b, requestBody r = Some b /\ Marshal b = inl err)
  \/ (requestBody r = None
      /\ NewRequest env (method r) (baseURL c +:+ path r) None = inl err)
  \/ (exists b bs, requestBody r = Some b /\ Marshal b = inr bs
      /\ NewRequest env (method r) (baseURL c +:+ path r) (Some bs) = inl err) ->
  exists w',
    requestRetry env c r w = (Val (None, Some err), w')
    /\ trace w'
       = trace w ++ [EvDoRequest; EvSleep (2 * Second);
                     EvDoRequest; EvSleep (4 * Second);
                     EvDoRequest; EvSleep (8 * Second);
                     EvDoRequest; EvSleep (16 * Second);
                     EvDoRequest; EvSleep (32 * Second);
                     EvDoRequest; EvSleep (64 * Second);
                     EvDoRequest; EvSleep (128 * Second);
                     EvDoRequest; EvSleep (256 * Second)]
    /\ attempts (trace w') = (attempts (trace w) + 8)%nat
    /\ roundTrips (trace w') = roundTrips (trace w)
    /\ sent w' = sent w.
Proof.
  intros Hf Hcase.
  assert (Hb : buildRequest env c (method r) (path r) (query r) (requestBody r)
               = inl err).
  { unfold buildRequest.
    destruct Hcase as [(b & Hr & Hm) | [(Hr & Hn) | (b & bs & Hr & Hm & Hn)]].
    - now rewrite Hr, Hm.
    - now rewrite Hr, Hn.
    - now rewrite Hr, Hm, Hn. }
  eexists. split; [apply (requestRetry_unsent env c r err w Hf Hb)|].
  cbn [trace sent]. split; [reflexivity|].
  rewrite attempts_app, roundTrips_app.
  rewrite attempts_unsentAttempts, roundTrips_unsentAttempts.
  repeat split. lia.
Qed.

Lemma requestRetry_retries_construction_failure_witness :
  exists w',
    requestRetry (Fixtures.env1 Fixtures.down) Fixtures.realClient
      {| method := MethodPut; path := "/api/v1/namespaces/ns/secrets/s";
         query := ∅; requestBody := Some Fixtures.mkUnencodable |} world0
    = (Val (None, Some Fixtures.unsupported), w')
    /\ trace w'
       = trace world0 ++ [EvDoRequest; EvSleep (2 * Second);
                          EvDoRequest; EvSleep (4 * Second);
                          EvDoRequest; EvSleep (8 * Second);
                          EvDoRequest; EvSleep (16 * Second);
                          EvDoRequest; EvSleep (32 * Second);
                          EvDoRequest; EvSleep (64 * Second);
                          EvDoRequest; EvSleep (128 * Second);
                          EvDoRequest; EvSleep (256 * Second)]
    /\ attempts (trace w') = (attempts (trace world0) + 8)%nat
    /\ roundTrips (trace w') = roundTrips (trace world0)
    /\ sent w' = sent world0.
Proof.
  apply (requestRetry_retries_construction_failure
           (Fixtures.env1 Fixtures.down) Fixtures.realClient
           {| method := MethodPut; path := "/api/v1/namespaces/ns/secrets/s";
              query := ∅; requestBody := Some Fixtures.mkUnencodable |}
           Fixtures.unsupported world0).
  - reflexivity.
  - left. exists Fixtures.mkUnencodable. split; reflexivity.
Defined.

(** ** The kinds of error *)

(** Every non-nil error passes the assertion to [ConflictError], provided
    only that it is an error at all. *)
Lemma typeAssert_ConflictError (e : error) :
  implements (dynType e) error_iface = true ->
  typeAssert (Some e) ConflictError_iface = true.
Proof. intros He. exact He. Qed.

(** The error for a 409 and the error for any other status outside 200..299
    have the same dynamic type, the one of [fmt.Errorf]; they differ in
    their text only. *)
Lemma interpret_failure_kind (resp : Response) (body : string) :
  Body resp = inr body ->
  is2xx (StatusCode resp) = false ->
  exists e, interpret resp = (None, Some e)
            /\ dynType e = errorString
            /\ typeAssert (Some e) ConflictError_iface = true.
Proof.
  intros Hbody Hs. unfold interpret. rewrite Hbody.
  destruct (StatusCode resp =? 409) eqn:H409.
  - eexists. repeat split.
  - unfold is2xx in Hs.
    assert (Hout : (StatusCode resp <? 200) || (StatusCode resp >? 299) = true).
    { apply andb_false_iff in Hs as [Hs | Hs].
      - apply Z.leb_gt in Hs. apply orb_true_iff. left. now apply Z.ltb_lt.
      - apply Z.leb_gt in Hs. apply orb_true_iff. right. apply Z.gtb_lt. lia. }
    rewrite Hout. eexists. repeat split.
Qed.

(** C1. The error returned for a 500 is of the same kind as the one
    returned for a 409: both are values of [fmt.Errorf], and both pass the
    type assertion to [ConflictError], which is an interface type with the
    method set of [error] and so holds for every non-nil error. *)
Theorem generic_failure_passes_ConflictError_assertion :
  exists e500 e409 : error,
    (requestRetry (env1 (downThen 0 (resp500 "boom"))) realClient getReq world0).1
    = Val (None, Some e500)
    /\ (requestRetry (env1 (downThen 0 (resp409 "boom"))) realClient getReq world0).1
       = Val (None, Some e409)
    /\ typeAssert (Some e409) ConflictError_iface = true
    /\ typeAssert (Some e500) ConflictError_iface = true
    /\ dynType e500 = dynType e409
    /\ typeAssert (Some refused) ConflictError_iface = true.
Proof. do 2 eexists. repeat split. Qed.

(** ** In-cluster construction *)

(** C2, as stated, fails: with both files readable and a CA file in which
    no certificate is found, construction succeeds, with an empty pool of
    root certificates. *)
Lemma NewClientInCluster_accepts_unparseable_bundle :
  unparseable (envOf down "token" "not a certificate" []) rootCAFile
  /\ NewClientInCluster (envOf down "token" "not a certificate" []) "ns"
     = (Some {| Logger := None;
                baseURL := inClusterBaseURL;
                client := Some {| TLSClientConfig :=
                                    Some {| MinVersion := VersionTLS12; RootCAs := [] |} |};
                token := "token";
                namespace := "ns";
                fake := false |},
        None)
  /\ ~ (exists err, NewClientInCluster (envOf down "token" "not a certificate" []) "ns"
                    = (None, Some err)).
Proof.
  split; [|split].
  - exists "not a certificate"%string. split; reflexivity.
  - reflexivity.
  - intros [err Herr]. discriminate Herr.
Qed.

(** C2, amended. Construction returns an error, and no client, exactly when
    the token file or the CA file is unreadable, and the error is that of
    the read that failed (of the token file when both would fail, the CA
    file being read second); otherwise it returns a whole client and no
    error, whatever the CA file holds: the pool has the certificates found
    in it. *)
Theorem NewClientInCluster_fails_iff_unreadable (env : Env) (ns : string) :
  ((exists err, NewClientInCluster env ns = (None, Some err))
   <-> unreadable env tokenFile \/ unreadable env rootCAFile)
  /\ ((exists c, NewClientInCluster env ns = (Some c, None))
      <-> ~ unreadable env tokenFile /\ ~ unreadable env rootCAFile)
  /\ (forall tok ca,
        ReadFile env tokenFile = inr tok ->
        ReadFile env rootCAFile = inr ca ->
        NewClientInCluster env ns
        = (Some {| Logger := None;
                   baseURL := inClusterBaseURL;
                   client := Some {| TLSClientConfig :=
                                       Some {| MinVersion := VersionTLS12;
                                               RootCAs := ParseCerts env ca |} |};
                   token := tok;
                   namespace := ns;
                   fake := false |},
           None))
  /\ ((exists err, NewClientInCluster env ns = (None, Some err))
      \/ (exists c, NewClientInCluster env ns = (Some c, None)))
  /\ (forall err,
        ReadFile env tokenFile = inl err ->
        NewClientInCluster env ns = (None, Some err))
  /\ (forall tok err,
        ReadFile env tokenFile = inr tok ->
        ReadFile env rootCAFile = inl err ->
        NewClientInCluster env ns = (None, Some err)).
Proof.
  unfold NewClientInCluster, unreadable, AppendCertsFromPEM, NewCertPool.
  destruct (ReadFile env tokenFile) as [e1|tok] eqn:Ht;
    [|destruct (ReadFile env rootCAFile) as [e2|ca] eqn:Hc]; cbn;
    repeat split; intros;
    repeat match goal with
      | Hx : exists _, _ |- _ => destruct Hx
      | Hx : _ \/ _ |- _ => destruct Hx
      | Hx : _ /\ _ |- _ => destruct Hx
      end;
    try discriminate;
    first [ congruence
          | now (left; eexists)
          | now (right; eexists)
          | now eexists
          | exfalso; match goal with Hn : ~ _ |- _ => apply Hn; now eexists end
          | intros [err Herr]; discriminate Herr ].
Qed.

(** ** The typed facade *)

Lemma interpret_2xx (resp : Response) (body : string) :
  is2xx (StatusCode resp) = true ->
  Body resp = inr body ->
  interpret resp = (Some body, None).
Proof.
  intros Hs Hbody. unfold interpret. rewrite Hbody.
  unfold is2xx in Hs. apply andb_true_iff in Hs as [Hlo Hhi].
  apply Z.leb_le in Hlo. apply Z.leb_le in Hhi.
  replace (StatusCode resp =? 409) with false by (symmetry; apply Z.eqb_neq; lia).
  replace (StatusCode resp <? 200) with false by (symmetry; apply Z.ltb_ge; lia).
  replace (StatusCode resp >? 299) with false
    by (symmetry; rewrite Z.gtb_ltb; apply Z.ltb_ge; lia).
  reflexivity.
Qed.

(** The decoder on the two bodies at stake. *)
Lemma Unmarshal_empty {T} `{Decodable T} (t : T) :
  Unmarshal EmptyString t = (t, Some (SyntaxError "unexpected end of JSON input")).
Proof. reflexivity. Qed.


Lemma Unmarshal_empty_object {T} `{Decodable T} (t : T) :
  Unmarshal "{}" t = (t, None).
Proof. reflexivity. Qed.

(** C3, as stated, fails: a 200 with an empty body, decoded into a slot,
    is an error of the decoder, not a success. *)
Lemma request_empty_2xx_body_fails :
  is2xx (StatusCode (resp200 EmptyString)) = true
  /\ (request (env1 (downThen 0 (resp200 EmptyString))) realClient getReq
              (Some (zero : Named)) world0).1
     = Val (Some zero, Some (SyntaxError "unexpected end of JSON input"))
  /\ forall t : Named,
       (request (env1 (downThen 0 (resp200 EmptyString))) realClient getReq
                (Some (zero : Named)) world0).1
       <> Val (Some t, None).
Proof.
  split; [reflexivity|]. split; [reflexivity|].
  intros t Heq. discriminate Heq.
Qed.

(** A 2xx response whose body is the empty object is decoded with success
    and leaves the slot as it was. *)
Lemma request_empty_object_body_succeeds
    (env : Env) {B T : Type} `{Encodable B} `{Decodable T}
    (c : Client) (r : request_t B) (req : HttpRequest) (hc : httpClient)
    (resp : Response) (k : nat) (t : T) (w : World) :
  fake c = false ->
  client c = Some hc ->
  buildRequest env c (method r) (path r) (query r) (requestBody r) = inr req ->
  (k < maxRetries)%nat ->
  (forall i, (i < k)%nat -> exists err, Do env (sent w + i) req = inl err) ->
  Do env (sent w + k) req = inr resp ->
  is2xx (StatusCode resp) = true ->
  Body resp = inr "{}"%string ->
  (request env c r (Some t) w).1 = Val (Some t, None).
Proof.
  intros Hf Hc Hb Hk Hfail Hok Hs Hbody.
  unfold request, mbind, M_bind, bind.
  rewrite (requestRetry_fail_then_answer env c r req hc resp k w
             Hf Hc Hb Hk Hfail Hok), (interpret_2xx resp _ Hs Hbody).
  reflexivity.
Qed.

(** C3, amended. On a client that is not fake, with a result slot, a 2xx
    response whose body is empty is not taken for the empty object: the
    call fails with the syntax error of the decoder, and the slot keeps the
    value it had. *)
Theorem request_empty_body_is_a_syntax_error
    (env : Env) {B T : Type} `{Encodable B} `{Decodable T}
    (c : Client) (r : request_t B) (req : HttpRequest) (hc : httpClient)
    (resp : Response) (k : nat) (t : T) (w : World) :
  fake c = false ->
  client c = Some hc ->
  buildRequest env c (method r) (path r) (query r) (requestBody r) = inr req ->
  (k < maxRetries)%nat ->
  (forall i, (i < k)%nat -> exists err, Do env (sent w + i) req = inl err) ->
  Do env (sent w + k) req = inr resp ->
  is2xx (StatusCode resp) = true ->
  Body resp = inr EmptyString ->
  (request env c r (Some t) w).1
  = Val (Some t, Some (SyntaxError "unexpected end of JSON input")).
Proof.
  intros Hf Hc Hb Hk Hfail Hok Hs Hbody.
  unfold request, mbind, M_bind, bind.
  rewrite (requestRetry_fail_then_answer env c r req hc resp k w
             Hf Hc Hb Hk Hfail Hok), (interpret_2xx resp _ Hs Hbody).
  reflexivity.
Qed.

Lemma request_empty_body_is_a_syntax_error_witness :
  (request (env1 (downThen 1 (resp200 EmptyString))) realClient getReq
           (Some (mkNamed "old")) world0).1
  = Val (Some (mkNamed "old"), Some (SyntaxError "unexpected end of JSON input")).
Proof.
  eapply (request_empty_body_is_a_syntax_error
            (env1 (downThen 1 (resp200 EmptyString))) realClient getReq sentGet _
            (resp200 EmptyString) 1 (mkNamed "old") world0).
  - reflexivity.
  - reflexivity.
  - reflexivity.
  - unfold maxRetries. lia.
  - intros i Hi. exists refused. destruct i as [|i]; [reflexivity | lia].
  - reflexivity.
  - reflexivity.
  - reflexivity.
Defined.

(** ** Logging, and the calls that do not reach the network *)

Section Logging.

Context (env : Env).

(** [log] adds its one logger call to the trace and nothing else. *)
Lemma log_run (c : Client) (methodName : string) (args : list any) (w : World) :
  log env c methodName args w
  = (Val tt, mkWorld (trace w ++ logCall env c methodName args) (sent w)).
Proof.
  unfold log, logCall. destruct (Logger c); cbn; [reflexivity|].
  rewrite app_nil_r. now destruct w.
Qed.

Lemma noTransport_logCall (c : Client) (methodName : string) (args : list any)
    (w : World) :
  noTransport w (mkWorld (trace w ++ logCall env c methodName args) (sent w)).
Proof.
  unfold noTransport, logCall. cbn [trace sent].
  rewrite attempts_app, roundTrips_app, sleeps_app.
  destruct (Logger c); cbn; rewrite ?Nat.add_0_r, ?app_nil_r; auto.
Qed.

(** An attempt logs nothing, however it ends. *)
Lemma doRequest_logged {B} `{Encodable B} (c : Client) (method urlPath : string)
    (query : gmap string string) (body : option B) (w : World) :
  logged (trace (doRequest env c method urlPath query body w).2) = logged (trace w).
Proof.
  unfold doRequest, mbind, M_bind, bind, emit, roundTrip, panic, mret, M_ret, ret.
  cbn. destruct (buildRequest env c method urlPath query body); cbn.
  - rewrite logged_app. cbn. apply app_nil_r.
  - destruct (client c); cbn; rewrite !logged_app; cbn; now rewrite !app_nil_r.
Qed.

Lemma retryLoop_logged {B} `{Encodable B} (c : Client) (r : request_t B) (n : nat) :
  forall (backoff : Z) (st : option Response * option error) (w : World),
    logged (trace (retryLoop env c r n backoff st w).2) = logged (trace w).
Proof.
  induction n as [|n IH]; intros backoff st w; [reflexivity|].
  cbn [retryLoop]. unfold mbind, M_bind, bind at 1.
  pose proof (doRequest_logged c (method r) (path r) (query r) (requestBody r) w)
    as Hd.
  destruct (doRequest env c (method r) (path r) (query r) (requestBody r) w)
    as [[res|why] w1]; cbn [snd] in Hd; [|exact Hd].
  destruct res as [err|resp]; [|exact Hd].
  unfold bind, emit. rewrite IH. cbn [trace].
  rewrite logged_app. cbn. now rewrite app_nil_r.
Qed.

Lemma requestRetry_logged {B} `{Encodable B} (c : Client) (r : request_t B)
    (w : World) :
  logged (trace (requestRetry env c r w).2) = logged (trace w).
Proof.
  unfold requestRetry. destruct (fake c); [reflexivity|].
  unfold mbind, M_bind, bind.
  pose proof (retryLoop_logged c r maxRetries retryDelay (None, None) w) as Hl.
  destruct (retryLoop env c r maxRetries retryDelay (None, None) w)
    as [[[resp err]|why] w1]; cbn [snd] in Hl; [|exact Hl].
  destruct err; [exact Hl|]. destruct resp; [|exact Hl].
  unfold emit. cbn. rewrite logged_app. cbn. now rewrite app_nil_r.
Qed.

Lemma request_logged {B T} `{Encodable B} `{Decodable T} (c : Client)
    (r : request_t B) (slot : option T) (w : World) :
  logged (trace (request env c r slot w).2) = logged (trace w).
Proof.
  unfold request, mbind, M_bind, bind.
  pose proof (requestRetry_logged c r w) as Hl.
  destruct (requestRetry env c r w) as [[[out err]|why] w1]; cbn [snd] in Hl;
    [|exact Hl].
  destruct err; [exact Hl|]. destruct slot as [t|]; [|exact Hl].
  now destruct (Unmarshal (bytes out) t).
Qed.

(** On a fake client the facade returns at once, the slot as it was. *)
Lemma request_fake {B T} `{Encodable B} `{Decodable T} (c : Client)
    (r : request_t B) (t : T) (w : World) :
  fake c = true -> request env c r (Some t) w = (Val (Some t, None), w).
Proof.
  intros Hf. unfold request, mbind, M_bind, bind.
  now rewrite (requestRetry_fake env c r w Hf).
Qed.

Lemma request_fake_nil {B T} `{Encodable B} `{Decodable T} (c : Client)
    (r : request_t B) (w : World) :
  fake c = true -> request env c r (@None T) w = (Val (None, None), w).
Proof.
  intros Hf. unfold request, mbind, M_bind, bind.
  now rewrite (requestRetry_fake env c r w Hf).
Qed.

End Logging.

(** ** The fake client *)

Section FakeClient.

Context (env : Env) {Pod Job Secret : Type}.
Context `{Decodable Pod, Encodable Pod, Formatter Pod}.
Context `{Decodable Job, Encodable Job, Formatter Job}.
Context `{Encodable Secret}.

Ltac fake_call :=
  intros w; eexists; split;
  [ unfold GetPod, ListPods, DeletePod, GetJob, ListJobs, CreatePod, CreateJob,
      DeleteJob, PatchJob, PatchJobStatus, ReplaceSecret, GetLog, nilSlot,
      mbind, M_bind, bind;
    rewrite log_run;
    first [ rewrite request_fake by reflexivity
          | rewrite request_fake_nil by reflexivity
          | rewrite requestRetry_fake by reflexivity ];
    reflexivity
  | apply noTransport_logCall ].

(** C7. On a client made by [NewFakeClient], with or without a logger set
    on it afterwards, every method returns with no attempt, nothing sent to
    the network and no sleep: [requestRetry] and [GetLog] return the bytes
    of the empty object and no error, the other methods the zero value of
    their result and no error. *)
Theorem fake_client_never_touches_the_network (l : option Effects.Logger) :
  let c := setLogger l NewFakeClient in
  (forall (B : Type) (E : Encodable B) (r : request_t B),
      returnsQuietly (requestRetry env c r) (Some "{}"%string, None))
  /\ (forall name, returnsQuietly (GetPod env c name) (zero : Pod, None))
  /\ (forall labels, returnsQuietly (ListPods env c labels) ([] : list Pod, None))
  /\ (forall name, returnsQuietly (DeletePod env c name) None)
  /\ (forall name, returnsQuietly (GetJob env c name) (zero : Job, None))
  /\ (forall labels, returnsQuietly (ListJobs env c labels) ([] : list Job, None))
  /\ (forall p : Pod, returnsQuietly (CreatePod env c p) (zero : Pod, None))
  /\ (forall j : Job, returnsQuietly (CreateJob env c j) (zero : Job, None))
  /\ (forall name, returnsQuietly (DeleteJob env c name) None)
  /\ (forall name (j : Job), returnsQuietly (PatchJob env c name j) (zero : Job, None))
  /\ (forall name (j : Job),
        returnsQuietly (PatchJobStatus env c name j) (zero : Job, None))
  /\ (forall name (s : Secret), returnsQuietly (ReplaceSecret env c name s) None)
  /\ (forall pod, returnsQuietly (GetLog env c pod) (Some "{}"%string, None)).
Proof.
  intros c. split.
  { intros B E r w. exists w. split.
    - now apply requestRetry_fake.
    - repeat split. }
  repeat split; intros; fake_call.
Qed.

End FakeClient.

(** ** What reaches the logger *)

Section SecretLogging.

Context (env : Env) {Pod Job Secret : Type}.
Context `{Decodable Pod, Encodable Pod, Formatter Pod}.
Context `{Decodable Job, Encodable Job, Formatter Job}.
Context `{Encodable Secret}.

Lemma ReplaceSecret_logged (c : Client) (name : string) (s : Secret) (w : World) :
  logged (trace (ReplaceSecret env c name s w).2)
  = logged (trace w) ++ logCall env c "ReplaceSecret" [AString name].
Proof.
  unfold ReplaceSecret, mbind, M_bind, bind at 1. rewrite log_run.
  unfold bind.
  match goal with
  | |- context [request env c ?r ?slot ?w1] =>
      pose proof (request_logged env c r slot w1) as Hl;
      destruct (request env c r slot w1) as [[[slot' err]|why] w2]
  end; cbn [snd trace] in Hl; cbn; rewrite Hl, logged_app; f_equal;
    unfold logCall; now destruct (Logger c).
Qed.

Lemma CreateJob_logged (c : Client) (j : Job) (w : World) :
  logged (trace (CreateJob env c j w).2)
  = logged (trace w) ++ logCall env c "CreateJob" [AValue j].
Proof.
  unfold CreateJob, mbind, M_bind, bind at 1. rewrite log_run.
  unfold bind.
  match goal with
  | |- context [request env c ?r ?slot ?w1] =>
      pose proof (request_logged env c r slot w1) as Hl;
      destruct (request env c r slot w1) as [[[slot' err]|why] w2]
  end; cbn [snd trace] in Hl; cbn; rewrite Hl, logged_app; f_equal;
    unfold logCall; now destruct (Logger c).
Qed.

(** C8. [ReplaceSecret] makes one logger call, with the method name and the
    secret's name and nothing else, or none without a logger: what it logs
    is the same for any two secrets and any two bearer tokens. [CreateJob]
    logs the method name and the job as [%v] prints it. *)
Theorem ReplaceSecret_never_logs_the_secret (c : Client) (name : string) (w : World) :
  (forall s : Secret,
      logged (trace (ReplaceSecret env c name s w).2)
      = logged (trace w)
        ++ match Logger c with
           | Some l => [EvPrintf l "%s(%s)" ["ReplaceSecret"%string; name]]
           | None => []
           end)
  /\ (forall (s1 s2 : Secret) (tok : string),
        logged (trace (ReplaceSecret env (setToken tok c) name s2 w).2)
        = logged (trace (ReplaceSecret env c name s1 w).2))
  /\ (forall j : Job,
        logged (trace (CreateJob env c j w).2)
        = logged (trace w)
          ++ match Logger c with
             | Some l => [EvPrintf l "%s(%s)" ["CreateJob"%string; fmtV j]]
             | None => []
             end).
Proof.
  split; [|split].
  - intros s. apply ReplaceSecret_logged.
  - intros s1 s2 tok. now rewrite !ReplaceSecret_logged.
  - intros j. apply CreateJob_logged.
Qed.

End SecretLogging.

(** ** Label selectors *)

(** C9. For the labels a:1 and b:2, whatever the order in which the map is
    visited, [labelsToSelector] returns the two pairs joined by a comma,
    each once, in one of the two orders. *)
Theorem labelsToSelector_two_labels (env : Env) :
  rangeOrder env (<["a"%string := "1"%string]> (<["b"%string := "2"%string]> ∅))
    ≡ₚ map_to_list (<["a"%string := "1"%string]> (<["b"%string := "2"%string]> ∅)) ->
  labelsToSelector env (<["a"%string := "1"%string]> (<["b"%string := "2"%string]> ∅))
  = "a = 1,b = 2"%string
  \/ labelsToSelector env (<["a"%string := "1"%string]> (<["b"%string := "2"%string]> ∅))
     = "b = 2,a = 1"%string.
Proof.
  intros Hperm. unfold labelsToSelector.
  change (map_to_list (<["a"%string := "1"%string]> (<["b"%string := "2"%string]> ∅)))
    with [("a"%string, "1"%string); ("b"%string, "2"%string)] in Hperm.
  symmetry in Hperm. apply Permutation_length_2_inv in Hperm as [-> | ->];
    [left | right]; reflexivity.
Qed.

Lemma labelsToSelector_two_labels_witness :
  labelsToSelector (env1 down) (<["a"%string := "1"%string]> (<["b"%string := "2"%string]> ∅))
  = "a = 1,b = 2"%string
  \/ labelsToSelector (env1 down)
       (<["a"%string := "1"%string]> (<["b"%string := "2"%string]> ∅))
     = "b = 2,a = 1"%string.
Proof.
  apply (labelsToSelector_two_labels (env1 down)). reflexivity.
Defined.

(** * Further properties of the execution layer *)

(** ** Every run of [requestRetry] has one of five shapes *)

(** Among the first [n] outcomes of a network, either one is an answer, the
    first after failures only, or all are failures. *)
Lemma first_answer (f : nat -> error + Response) (n : nat) :
  (exists k resp, (k < n)%nat
                  /\ (forall i, (i < k)%nat -> exists err, f i = inl err)
                  /\ f k = inr resp)
  \/ (exists errs : nat -> error, forall i, (i < n)%nat -> f i = inl (errs i)).
Proof.
  induction n as [|n IH].
  - right. exists (fun _ => Errorf EmptyString). intros i Hi. lia.
  - destruct IH as [(k & resp & Hk & Hfail & Hok) | (errs & Hfail)].
    + left. exists k, resp. repeat split; [lia | exact Hfail | exact Hok].
    + destruct (f n) as [err|resp] eqn:Hn.
      * right. exists (fun i => if (i =? n)%nat then err else errs i).
        intros i Hi. destruct (Nat.eqb_spec i n) as [->|Hne]; [exact Hn|].
        apply Hfail. lia.
      * left. exists n, resp. repeat split; [lia | | exact Hn].
        intros i Hi. exists (errs i). now apply Hfail.
Qed.

Lemma requestRetry_shape (env : Env) {B : Type} `{Encodable B} (c : Client)
    (r : request_t B) (w : World) :
  exists evs,
    RunShape env c r w (requestRetry env c r w).1 evs
    /\ trace (requestRetry env c r w).2 = trace w ++ evs
    /\ sent (requestRetry env c r w).2 = (sent w + roundTrips evs)%nat.
Proof.
  destruct (fake c) eqn:Hf.
  { exists []. rewrite (requestRetry_fake env c r w Hf). cbn.
    rewrite app_nil_r, Nat.add_0_r. repeat split. now apply RunFake. }
  destruct (buildRequest env c (method r) (path r) (query r) (requestBody r))
    as [err|req] eqn:Hb.
  { eexists. rewrite (requestRetry_unsent env c r err w Hf Hb). cbn [fst snd trace sent].
    split; [now apply RunUnsent|]. split; [reflexivity|].
    now rewrite roundTrips_unsentAttempts, Nat.add_0_r. }
  destruct (client c) as [hc|] eqn:Hc.
  - destruct (first_answer (fun i => Do env (sent w + i) req) maxRetries)
      as [(k & resp & Hk & Hfail & Hok) | (errs & Hfail)].
    + eexists.
      rewrite (requestRetry_fail_then_answer env c r req hc resp k w Hf Hc Hb Hk Hfail Hok).
      cbn [fst snd trace sent]. split; [eapply RunAnswered; eassumption|].
      split; [reflexivity|].
      rewrite roundTrips_app, roundTrips_failedAttempts. cbn. lia.
    + eexists.
      rewrite (requestRetry_all_fail env c r req hc errs w Hf Hc Hb Hfail).
      cbn [fst snd trace sent].
      split; [exact (RunExhausted env c r w req hc errs Hf Hb Hc Hfail)|].
      split; [reflexivity|].
      now rewrite roundTrips_failedAttempts.
  - exists [EvDoRequest].
    unfold requestRetry. rewrite Hf. unfold maxRetries. cbn [retryLoop].
    unfold mbind, M_bind, bind, doRequest, emit, panic. cbn. rewrite Hb, Hc.
    cbn. rewrite Nat.add_0_r. repeat split. now apply RunPanic with req.
Qed.

(** ** Counting over the shapes *)

Lemma closes_app (l l' : list Event) : closes (l ++ l') = (closes l + closes l')%nat.
Proof. unfold closes. now rewrite List.filter_app, length_app. Qed.

Lemma closes_failedAttempts (req : HttpRequest) (k : nat) (backoff : Z) :
  closes (failedAttempts req k backoff) = 0%nat.
Proof.
  revert backoff. induction k as [|k IH]; intros backoff; [reflexivity|].
  cbn [failedAttempts]. rewrite closes_app, IH. reflexivity.
Qed.

Lemma closes_unsentAttempts (k : nat) (backoff : Z) :
  closes (unsentAttempts k backoff) = 0%nat.
Proof.
  revert backoff. induction k as [|k IH]; intros backoff; [reflexivity|].
  cbn [unsentAttempts]. rewrite closes_app, IH. reflexivity.
Qed.

Lemma logged_unsentAttempts (k : nat) (backoff : Z) :
  logged (unsentAttempts k backoff) = [].
Proof.
  revert backoff. induction k as [|k IH]; intros backoff; [reflexivity|].
  cbn [unsentAttempts]. rewrite logged_app, IH. reflexivity.
Qed.

Lemma sleeps_unsentAttempts (k : nat) (backoff : Z) :
  sleeps (unsentAttempts k backoff)
  = map (fun i => Nat.iter i double backoff) (seq 0 k).
Proof.
  revert backoff. induction k as [|k IH]; intros backoff; [reflexivity|].
  cbn [unsentAttempts]. rewrite sleeps_app, IH. cbn [sleeps flat_map app seq map Nat.iter].
  f_equal. rewrite <- seq_shift, map_map. apply map_ext. intros i.
  now rewrite Nat.iter_succ_r.
Qed.

(** The backoff schedule: the first [k] sleeps, for [k] within the bound. *)
Lemma schedule (k : nat) :
  (k <= maxRetries)%nat ->
  map (fun i => Nat.iter i double retryDelay) (seq 0 k)
  = map (fun i => 2 ^ Z.of_nat i * retryDelay) (seq 0 k).
Proof.
  intros Hk. apply map_ext_in. intros i Hi. apply in_seq in Hi.
  apply backoff_doubles. lia.
Qed.

(** What the events of a run count up to, shape by shape. *)
Lemma RunShape_counts (env : Env) {B : Type} `{Encodable B} (c : Client)
    (r : request_t B) (w : World) (res : Res (option string * option error))
    (evs : list Event) :
  RunShape env c r w res evs ->
  exists k : nat,
    (k <= maxRetries)%nat
    /\ (attempts evs <= maxRetries)%nat
    /\ (k <= attempts evs)%nat
    /\ (roundTrips evs <= attempts evs)%nat
    /\ sleeps evs = map (fun i => 2 ^ Z.of_nat i * retryDelay) (seq 0 k)
    /\ logged evs = [].
Proof.
  intros Hs. destruct Hs as [Hf | err Hf Hb | req Hf Hb Hc
                             | req hc k resp Hf Hb Hc Hk Hfail Hok
                             | req hc errs Hf Hb Hc Hfail].
  - exists 0%nat. unfold maxRetries. cbn. repeat split; lia.
  - exists maxRetries.
    rewrite attempts_unsentAttempts, roundTrips_unsentAttempts,
      sleeps_unsentAttempts, logged_unsentAttempts, (schedule maxRetries) by lia.
    repeat split; lia.
  - exists 0%nat. unfold maxRetries. cbn. repeat split; lia.
  - exists k.
    rewrite attempts_app, roundTrips_app, sleeps_app, logged_app,
      attempts_failedAttempts, roundTrips_failedAttempts, sleeps_failedAttempts,
      logged_failedAttempts, (schedule k) by lia.
    cbn. rewrite app_nil_r. repeat split; lia.
  - exists maxRetries.
    rewrite attempts_failedAttempts, roundTrips_failedAttempts,
      sleeps_failedAttempts, logged_failedAttempts, (schedule maxRetries) by lia.
    repeat split; lia.
Qed.

(** The interpreter gives bytes or an error, never both, never neither. *)
Lemma interpret_one_outcome (resp : Response) :
  is_Some (interpret resp).1 <-> (interpret resp).2 = None.
Proof.
  unfold interpret. destruct (Body resp) as [err|rb]; cbn.
  - split; [intros [x Hx]; discriminate Hx | intros Hx; discriminate Hx].
  - destruct (StatusCode resp =? 409); cbn;
      [split; [intros [x Hx]; discriminate Hx | intros Hx; discriminate Hx]|].
    destruct ((StatusCode resp <? 200) || (StatusCode resp >? 299)); cbn.
    + split; [intros [x Hx]; discriminate Hx | intros Hx; discriminate Hx].
    + split; [reflexivity | intros _; now exists rb].
Qed.

(** Bytes come out of the interpreter for a 2xx status and a body that was
    read, and they are that body. *)
Lemma interpret_success_inv (resp : Response) (out : string) (err : option error) :
  interpret resp = (Some out, err) ->
  is2xx (StatusCode resp) = true /\ Body resp = inr out /\ err = None.
Proof.
  unfold interpret, is2xx. destruct (Body resp) as [e|rb]; [discriminate|].
  destruct (StatusCode resp =? 409); [discriminate|].
  destruct (StatusCode resp <? 200) eqn:Hlo; [discriminate|].
  destruct (StatusCode resp >? 299) eqn:Hhi; [discriminate|].
  cbn. intros Heq. inversion Heq; subst. repeat split.
  apply Z.ltb_ge in Hlo. rewrite Z.gtb_ltb in Hhi. apply Z.ltb_ge in Hhi.
  apply andb_true_iff. split; apply Z.leb_le; lia.
Qed.

(** ** Bounds that hold in every run *)

Lemma failedAttempts_segments (req : HttpRequest) (k : nat) (backoff : Z) :
  exists segs,
    failedAttempts req k backoff = concat segs
    /\ length segs = k
    /\ Forall attemptSegment segs.
Proof.
  revert backoff. induction k as [|k IH]; intros backoff.
  - exists []. repeat split. constructor.
  - destruct (IH (double backoff)) as (segs & Heq & Hlen & Hall).
    exists ([EvDoRequest; EvRoundTrip req; EvSleep backoff] :: segs).
    cbn [failedAttempts concat length]. rewrite Heq, Hlen. repeat split.
    constructor; [|exact Hall].
    exists [EvRoundTrip req; EvSleep backoff]. cbn. repeat split; lia.
Qed.

Lemma unsentAttempts_segments (k : nat) (backoff : Z) :
  exists segs,
    unsentAttempts k backoff = concat segs
    /\ length segs = k
    /\ Forall attemptSegment segs.
Proof.
  revert backoff. induction k as [|k IH]; intros backoff.
  - exists []. repeat split. constructor.
  - destruct (IH (double backoff)) as (segs & Heq & Hlen & Hall).
    exists ([EvDoRequest; EvSleep backoff] :: segs).
    cbn [unsentAttempts concat length]. rewrite Heq, Hlen. repeat split.
    constructor; [|exact Hall].
    exists [EvSleep backoff]. cbn. repeat split; lia.
Qed.

(** The events of a run fall into attempts, shape by shape. *)
Lemma RunShape_segments (env : Env) {B : Type} `{Encodable B} (c : Client)
    (r : request_t B) (w : World) (res : Res (option string * option error))
    (evs : list Event) :
  RunShape env c r w res evs ->
  exists segs,
    evs = concat segs
    /\ length segs = attempts evs
    /\ Forall attemptSegment segs.
Proof.
  intros Hs. destruct Hs as [Hf | err Hf Hb | req Hf Hb Hc
                             | req hc k resp Hf Hb Hc Hk Hfail Hok
                             | req hc errs Hf Hb Hc Hfail].
  - exists []. repeat split. constructor.
  - destruct (unsentAttempts_segments maxRetries retryDelay) as (segs & Heq & Hlen & Hall).
    exists segs. rewrite attempts_unsentAttempts. now repeat split.
  - exists [[EvDoRequest]]. repeat split. constructor; [|constructor].
    exists []. cbn. repeat split; lia.
  - destruct (failedAttempts_segments req k retryDelay) as (segs & Heq & Hlen & Hall).
    exists (segs ++ [[EvDoRequest; EvRoundTrip req; EvClose]]).
    rewrite attempts_app, attempts_failedAttempts, length_app, Hlen, concat_app, <- Heq.
    cbn [concat app length]. repeat split.
    apply Forall_app. split; [exact Hall|]. constructor; [|constructor].
    exists [EvRoundTrip req; EvClose]. cbn. repeat split; lia.
  - destruct (failedAttempts_segments req maxRetries retryDelay)
      as (segs & Heq & Hlen & Hall).
    exists segs. rewrite attempts_failedAttempts. now repeat split.
Qed.

(** X1. Whatever the network does, whatever the client and the request, a
    call of [requestRetry] makes at most 8 attempts, and what it does falls
    into these attempts: each begins with the entry into [doRequest] and
    holds at most one round trip and at most one sleep. The call logs
    nothing. *)
Theorem requestRetry_attempts_bounded (env : Env) {B : Type} `{Encodable B}
    (c : Client) (r : request_t B) (w : World) :
  exists (evs : list Event) (segs : list (list Event)),
    trace (requestRetry env c r w).2 = trace w ++ evs
    /\ sent (requestRetry env c r w).2 = (sent w + roundTrips evs)%nat
    /\ evs = concat segs
    /\ length segs = attempts evs
    /\ Forall attemptSegment segs
    /\ (attempts evs <= 8)%nat
    /\ (roundTrips evs <= attempts evs)%nat
    /\ (length (sleeps evs) <= attempts evs)%nat
    /\ logged evs = [].
Proof.
  destruct (requestRetry_shape env c r w) as (evs & Hs & Ht & Hn).
  destruct (RunShape_counts env c r w _ evs Hs) as (k & Hk & Ha & Hka & Hr & Hsl & Hl).
  destruct (RunShape_segments env c r w _ evs Hs) as (segs & Heq & Hlen & Hall).
  exists evs, segs. repeat split; try assumption.
  rewrite Hsl, length_map, length_seq. exact Hka.
Qed.

(** X2. In every run the sleeps follow the schedule 2 s, 4 s, 8 s, ...: they
    are the first [k] terms of it for some [k] up to 8, so the backoff never
    wraps around and a call never sleeps more than 510 s in all. *)
Theorem requestRetry_backoff_schedule (env : Env) {B : Type} `{Encodable B}
    (c : Client) (r : request_t B) (w : World) :
  exists (evs : list Event) (k : nat),
    trace (requestRetry env c r w).2 = trace w ++ evs
    /\ (k <= 8)%nat
    /\ sleeps evs = map (fun i => 2 ^ Z.of_nat i * (2 * Second)) (seq 0 k)
    /\ 0 <= fold_right Z.add 0 (sleeps evs) <= 510 * Second.
Proof.
  destruct (requestRetry_shape env c r w) as (evs & Hs & Ht & Hn).
  destruct (RunShape_counts env c r w _ evs Hs) as (k & Hk & Ha & Hka & Hr & Hsl & Hl).
  exists evs, k. split; [exact Ht|]. split; [exact Hk|]. split; [exact Hsl|].
  rewrite Hsl. unfold maxRetries in Hk.
  do 9 (destruct k as [|k]; [vm_compute; split; intros Hx; discriminate Hx|]). lia.
Qed.

(** ** Outcomes *)

(** X3. A call of [requestRetry] that returns gives bytes or an error, never
    both and never neither; and it can only panic on a client that has no
    [http.Client]. *)
Theorem requestRetry_one_outcome (env : Env) {B : Type} `{Encodable B}
    (c : Client) (r : request_t B) (w : World) :
  match (requestRetry env c r w).1 with
  | Val (out, err) => is_Some out <-> err = None
  | Panic _ => fake c = false /\ client c = None
  end.
Proof.
  destruct (requestRetry_shape env c r w) as (evs & Hs & _).
  destruct Hs as [Hf | err Hf Hb | req Hf Hb Hc
                  | req hc k resp Hf Hb Hc Hk Hfail Hok
                  | req hc errs Hf Hb Hc Hfail].
  - split; [reflexivity | intros _; now eexists].
  - split; [intros [x Hx]; discriminate Hx | intros Hx; discriminate Hx].
  - now split.
  - pose proof (interpret_one_outcome resp) as Hone.
    now destruct (interpret resp) as [out err].
  - split; [intros [x Hx]; discriminate Hx | intros Hx; discriminate Hx].
Qed.

(** X4. On a client that is not fake, bytes are returned only for an answer
    of the network with a status in 200..299 whose body was read, and they
    are that body, byte for byte. *)
Theorem requestRetry_payload_is_a_2xx_body (env : Env) {B : Type} `{Encodable B}
    (c : Client) (r : request_t B) (w : World) (out : string)
    (err : option error) :
  fake c = false ->
  (requestRetry env c r w).1 = Val (Some out, err) ->
  exists (req : HttpRequest) (k : nat) (resp : Response),
    buildRequest env c (method r) (path r) (query r) (requestBody r) = inr req
    /\ (k < maxRetries)%nat
    /\ Do env (sent w + k) req = inr resp
    /\ is2xx (StatusCode resp) = true
    /\ Body resp = inr out
    /\ err = None.
Proof.
  intros Hnf Hres.
  destruct (requestRetry_shape env c r w) as (evs & Hs & _).
  rewrite Hres in Hs.
  inversion Hs as [Hf | e Hf Hb | req Hf Hb Hc
                   | req hc k resp Hf Hb Hc Hk Hfail Hok Hint
                   | req hc errs Hf Hb Hc Hfail]; subst.
  - congruence.
  - apply interpret_success_inv in Hint as (H2 & Hbody & He).
    exists req, k, resp. repeat split; assumption.
Qed.

Lemma requestRetry_payload_is_a_2xx_body_witness :
  exists (req : HttpRequest) (k : nat) (resp : Response),
    buildRequest (env1 (downThen 3 (resp200 "{}"))) realClient
      (method getReq) (path getReq) (query getReq) (requestBody getReq) = inr req
    /\ (k < maxRetries)%nat
    /\ Do (env1 (downThen 3 (resp200 "{}"))) (sent world0 + k) req = inr resp
    /\ is2xx (StatusCode resp) = true
    /\ Body resp = inr "{}"%string
    /\ @None error = None.
Proof.
  apply (requestRetry_payload_is_a_2xx_body
           (env1 (downThen 3 (resp200 "{}"))) realClient getReq world0 "{}" None).
  - reflexivity.
  - reflexivity.
Defined.

(** ** Closing the response body *)

(** X5. A response body is closed at most once in a call, and when it is,
    closing is the last thing the call does. On a client that is not fake,
    a call that returns bytes has closed the body. A call that sent nothing
    has closed none, and a fake client does nothing at all. *)
Theorem requestRetry_closes_the_body (env : Env) {B : Type} `{Encodable B}
    (c : Client) (r : request_t B) (w : World) :
  exists evs,
    trace (requestRetry env c r w).2 = trace w ++ evs
    /\ (closes evs <= 1)%nat
    /\ (closes evs = 1%nat -> last evs = Some EvClose)
    /\ (roundTrips evs = 0%nat -> closes evs = 0%nat)
    /\ (fake c = false ->
        forall out err, (requestRetry env c r w).1 = Val (Some out, err) ->
                        closes evs = 1%nat)
    /\ (fake c = true -> evs = []).
Proof.
  destruct (requestRetry_shape env c r w) as (evs & Hs & Ht & _).
  exists evs. split; [exact Ht|]. clear Ht.
  destruct Hs as [Hf | err Hf Hb | req Hf Hb Hc
                  | req hc k resp Hf Hb Hc Hk Hfail Hok
                  | req hc errs Hf Hb Hc Hfail];
    rewrite ?closes_app, ?roundTrips_app, ?closes_unsentAttempts,
      ?closes_failedAttempts, ?roundTrips_failedAttempts;
    cbn [closes roundTrips List.filter isClose isRoundTrip length Nat.add];
    repeat split; intros; try lia; try congruence;
    try (unfold maxRetries in *; lia).
  now rewrite last_app.
Qed.

(** ** What the interpreter makes of an answer *)

(** X6. When the body of the answer cannot be read to its end, the call
    returns the error of the read as it is and no bytes, whatever the
    status, a 200 or a 409 included, and it still closes the body. *)
Theorem requestRetry_read_error (env : Env) {B : Type} `{Encodable B}
    (c : Client) (r : request_t B) (req : HttpRequest) (hc : httpClient)
    (resp : Response) (k : nat) (rerr : error) (w : World) :
  fake c = false ->
  client c = Some hc ->
  buildRequest env c (method r) (path r) (query r) (requestBody r) = inr req ->
  (k < maxRetries)%nat ->
  (forall i, (i < k)%nat -> exists err, Do env (sent w + i) req = inl err) ->
  Do env (sent w + k) req = inr resp ->
  Body resp = inl rerr ->
  (requestRetry env c r w).1 = Val (None, Some rerr)
  /\ last (trace (requestRetry env c r w).2) = Some EvClose.
Proof.
  intros Hf Hc Hb Hk Hfail Hok Hbody.
  rewrite (requestRetry_fail_then_answer env c r req hc resp k w Hf Hc Hb Hk Hfail Hok).
  cbn [fst snd trace]. unfold interpret. rewrite Hbody. split; [reflexivity|].
  now rewrite !last_app.
Qed.

Lemma requestRetry_read_error_witness :
  (requestRetry (env1 (downThen 0 (respBroken 409 "409 Conflict"))) realClient
                getReq world0).1
  = Val (None, Some unexpectedEOF)
  /\ last (trace (requestRetry (env1 (downThen 0 (respBroken 409 "409 Conflict")))
                               realClient getReq world0).2)
     = Some EvClose.
Proof.
  eapply (requestRetry_read_error
            (env1 (downThen 0 (respBroken 409 "409 Conflict"))) realClient getReq
            sentGet _ (respBroken 409 "409 Conflict") 0 unexpectedEOF world0).
  - reflexivity.
  - reflexivity.
  - reflexivity.
  - unfold maxRetries. lia.
  - intros i Hi. lia.
  - reflexivity.
  - reflexivity.
Defined.

(** X7. Every status outside 200..299 other than 409 (a 404, a 302, a 199)
    with a body that was read gives the generic error of [fmt.Errorf], whose
    text holds both the status line and the body. *)
Theorem requestRetry_generic_failure_text (env : Env) {B : Type} `{Encodable B}
    (c : Client) (r : request_t B) (req : HttpRequest) (hc : httpClient)
    (resp : Response) (k : nat) (body : string) (w : World) :
  fake c = false ->
  client c = Some hc ->
  buildRequest env c (method r) (path r) (query r) (requestBody r) = inr req ->
  (k < maxRetries)%nat ->
  (forall i, (i < k)%nat -> exists err, Do env (sent w + i) req = inl err) ->
  Do env (sent w + k) req = inr resp ->
  Body resp = inr body ->
  is2xx (StatusCode resp) = false ->
  StatusCode resp <> 409 ->
  exists msg,
    (requestRetry env c r w).1 = Val (None, Some (Errorf msg))
    /\ contains msg (Status resp)
    /\ contains msg body.
Proof.
  intros Hf Hc Hb Hk Hfail Hok Hbody Hs H409.
  rewrite (requestRetry_fail_then_answer env c r req hc resp k w Hf Hc Hb Hk Hfail Hok).
  cbn [fst]. unfold interpret. rewrite Hbody.
  replace (StatusCode resp =? 409) with false by (symmetry; now apply Z.eqb_neq).
  assert (Hout : (StatusCode resp <? 200) || (StatusCode resp >? 299) = true).
  { unfold is2xx in Hs. apply andb_false_iff in Hs as [Hs | Hs].
    - apply Z.leb_gt in Hs. apply orb_true_iff. left. now apply Z.ltb_lt.
    - apply Z.leb_gt in Hs. apply orb_true_iff. right. apply Z.gtb_lt. lia. }
  rewrite Hout. eexists. split; [reflexivity|]. split.
  - exists ("response has status " +:+ quote),
      (quote +:+ " and body " +:+ quote +:+ body +:+ quote).
    now rewrite !append_assoc.
  - exists ("response has status " +:+ quote +:+ Status resp +:+ quote
            +:+ " and body " +:+ quote), quote.
    now rewrite !append_assoc.
Qed.

Lemma requestRetry_generic_failure_text_witness :
  exists msg,
    (requestRetry (env1 (downThen 1 (resp404 "no such pod"))) realClient getReq
                  world0).1
    = Val (None, Some (Errorf msg))
    /\ contains msg (Status (resp404 "no such pod"))
    /\ contains msg "no such pod".
Proof.
  eapply (requestRetry_generic_failure_text
            (env1 (downThen 1 (resp404 "no such pod"))) realClient getReq
            sentGet _ (resp404 "no such pod") 1 "no such pod" world0).
  - reflexivity.
  - reflexivity.
  - reflexivity.
  - unfold maxRetries. lia.
  - intros i Hi. exists refused. destruct i as [|i]; [reflexivity | lia].
  - reflexivity.
  - reflexivity.
  - reflexivity.
  - discriminate.
Defined.

(** ** The facade and the methods on an answered call *)

(** X8. Without a result slot the facade never decodes: a 2xx answer is a
    success whatever its body holds, JSON or not. *)
Theorem request_without_slot_ignores_body (env : Env) {B T : Type}
    `{Encodable B} `{Decodable T}
    (c : Client) (r : request_t B) (req : HttpRequest) (hc : httpClient)
    (resp : Response) (k : nat) (body : string) (w : World) :
  fake c = false ->
  client c = Some hc ->
  buildRequest env c (method r) (path r) (query r) (requestBody r) = inr req ->
  (k < maxRetries)%nat ->
  (forall i, (i < k)%nat -> exists err, Do env (sent w + i) req = inl err) ->
  Do env (sent w + k) req = inr resp ->
  is2xx (StatusCode resp) = true ->
  Body resp = inr body ->
  (request env c r (@None T) w).1 = Val (None, None).
Proof.
  intros Hf Hc Hb Hk Hfail Hok Hs Hbody.
  unfold request, mbind, M_bind, bind.
  rewrite (requestRetry_fail_then_answer env c r req hc resp k w
             Hf Hc Hb Hk Hfail Hok), (interpret_2xx resp _ Hs Hbody).
  reflexivity.
Qed.

Lemma request_without_slot_ignores_body_witness :
  (request (env1 (downThen 0 (resp200 "<html>gone</html>"))) realClient getReq
           nilSlot world0).1
  = Val (None, None).
Proof.
  eapply (request_without_slot_ignores_body
            (env1 (downThen 0 (resp200 "<html>gone</html>"))) realClient getReq
            sentGet _ (resp200 "<html>gone</html>") 0 "<html>gone</html>" world0).
  - reflexivity.
  - reflexivity.
  - reflexivity.
  - unfold maxRetries. lia.
  - intros i Hi. lia.
  - reflexivity.
  - reflexivity.
  - reflexivity.
Defined.

(** X9. [GetLog] hands back the body of a 2xx answer byte for byte, with no
    decoding: a log that is not JSON is no error. *)
Theorem GetLog_returns_body_verbatim (env : Env)
    (c : Client) (pod : string) (req : HttpRequest) (hc : httpClient)
    (resp : Response) (k : nat) (body : string) (w : World) :
  fake c = false ->
  client c = Some hc ->
  buildRequest env c MethodGet
    ("/api/v1/namespaces/" +:+ namespace c +:+ "/pods/" +:+ pod +:+ "/log")
    ∅ nilBody = inr req ->
  (k < maxRetries)%nat ->
  (forall i, (i < k)%nat -> exists err, Do env (sent w + i) req = inl err) ->
  Do env (sent w + k) req = inr resp ->
  is2xx (StatusCode resp) = true ->
  Body resp = inr body ->
  (GetLog env c pod w).1 = Val (Some body, None).
Proof.
  intros Hf Hc Hb Hk Hfail Hok Hs Hbody.
  unfold GetLog, mbind, M_bind, bind. rewrite log_run.
  erewrite requestRetry_fail_then_answer; try eassumption.
  cbn [fst]. f_equal. now apply interpret_2xx.
Qed.

Lemma GetLog_returns_body_verbatim_witness :
  (GetLog (env1 (downThen 2 (resp200 "I0102 starting; not JSON"))) realClient "p"
          world0).1
  = Val (Some "I0102 starting; not JSON"%string, None).
Proof.
  eapply (GetLog_returns_body_verbatim
            (env1 (downThen 2 (resp200 "I0102 starting; not JSON"))) realClient "p"
            _ _ (resp200 "I0102 starting; not JSON") 2 _ world0).
  - reflexivity.
  - reflexivity.
  - reflexivity.
  - unfold maxRetries. lia.
  - intros i Hi. exists refused. destruct i as [|[|i]]; [reflexivity | reflexivity | lia].
  - reflexivity.
  - reflexivity.
  - reflexivity.
Defined.


Section TypedMethods.

Context (env : Env) {Pod : Type} `{Decodable Pod, Encodable Pod, Formatter Pod}.


(** X11. When the server answers a 2xx that echoes the body it was sent,
    and that body decodes to the Pod it was made from, [CreatePod] returns
    the Pod it was given. *)
Theorem CreatePod_echo_round_trip
    (c : Client) (p : Pod) (bs : string) (req : HttpRequest) (hc : httpClient)
    (resp : Response) (k : nat) (w : World) :
  fake c = false ->
  client c = Some hc ->
  Marshal p = inr bs ->
  Unmarshal bs (zero : Pod) = (p, None) ->
  buildRequest env c MethodPost
    ("/api/v1/namespaces/" +:+ namespace c +:+ "/pods") ∅ (Some p)
  = inr req ->
  (k < maxRetries)%nat ->
  (forall i, (i < k)%nat -> exists err, Do env (sent w + i) req = inl err) ->
  Do env (sent w + k) req = inr resp ->
  is2xx (StatusCode resp) = true ->
  Body resp = inr bs ->
  (CreatePod env c p w).1 = Val (p, None).
Proof.
  intros Hf Hc Hm Hrt Hb Hk Hfail Hok Hs Hbody.
  unfold CreatePod, mbind, M_bind, bind at 1. rewrite log_run.
  unfold request, mbind, M_bind, bind.
  erewrite requestRetry_fail_then_answer; try eassumption.
  rewrite (interpret_2xx resp _ Hs Hbody). cbn [bytes default from_option id].
  now rewrite Hrt.
Qed.

End TypedMethods.


Lemma CreatePod_echo_round_trip_witness :
  (CreatePod envEcho realClient (mkNamed "web") world0).1 = Val (mkNamed "web", None).
Proof.
  eapply (CreatePod_echo_round_trip envEcho realClient (mkNamed "web") _ _ _ _ 0 world0).
  - reflexivity.
  - reflexivity.
  - reflexivity.
  - reflexivity.
  - reflexivity.
  - unfold maxRetries. lia.
  - intros i Hi. lia.
  - reflexivity.
  - reflexivity.
  - reflexivity.
Defined.

(** ** Panics *)

(** With the fake flag or with an [http.Client], [requestRetry] returns. *)
Lemma requestRetry_returns (env : Env) {B : Type} `{Encodable B}
    (c : Client) (r : request_t B) (w : World) :
  fake c = true \/ client c <> None ->
  exists a w', requestRetry env c r w = (Val a, w').
Proof.
  intros Hc. destruct (requestRetry_shape env c r w) as (evs & Hs & _).
  destruct (requestRetry env c r w) as [res w'] eqn:Hrun. cbn [fst] in Hs.
  destruct res as [a|why]; [now exists a, w'|].
  exfalso. inversion Hs; subst. destruct Hc as [Hc|Hc]; congruence.
Qed.

Lemma request_returns (env : Env) {B T : Type} `{Encodable B} `{Decodable T}
    (c : Client) (r : request_t B) (slot : option T) (w : World) :
  fake c = true \/ client c <> None ->
  exists a w', request env c r slot w = (Val a, w').
Proof.
  intros Hc. destruct (requestRetry_returns env c r w Hc) as ([out err] & w' & Hrun).
  unfold request, mbind, M_bind, bind. rewrite Hrun.
  destruct err; [now eexists; eexists|].
  destruct slot as [t|]; [|now eexists; eexists].
  destruct (Unmarshal (bytes out) t). now eexists; eexists.
Qed.

Section NoPanic.

Context (env : Env) {Pod Job Secret : Type}.
Context `{Decodable Pod, Encodable Pod, Formatter Pod}.
Context `{Decodable Job, Encodable Job, Formatter Job}.
Context `{Encodable Secret}.

Ltac method_returns Hc :=
  unfold GetPod, ListPods, DeletePod, GetJob, ListJobs, CreatePod, CreateJob,
    DeleteJob, PatchJob, PatchJobStatus, ReplaceSecret, GetLog,
    mbind, M_bind, bind at 1;
  rewrite log_run; unfold bind;
  match goal with
  | |- context [@request env _ _ _ _ ?c ?r ?slot ?w1] =>
      destruct (request_returns env c r slot w1 Hc) as ([? ?] & ? & Hrun);
      rewrite Hrun; eexists; eexists; reflexivity
  | |- context [@requestRetry env _ _ ?c ?r ?w1] =>
      destruct (requestRetry_returns env c r w1 Hc) as (? & ? & Hrun);
      rewrite Hrun; eexists; eexists; reflexivity
  end.

(** X12. On a client with no logger that is fake or has an [http.Client],
    each of the twelve methods returns, whatever the network answers and
    whatever the arguments: none runs into a nil pointer. (With a logger,
    what [Printf] does is the logger's own affair.) *)
Theorem methods_never_panic (c : Client) :
  Logger c = None ->
  fake c = true \/ client c <> None ->
  (forall name, neverPanics (GetPod (Pod:=Pod) env c name))
  /\ (forall labels, neverPanics (ListPods (Pod:=Pod) env c labels))
  /\ (forall name, neverPanics (DeletePod env c name))
  /\ (forall name, neverPanics (GetJob (Job:=Job) env c name))
  /\ (forall labels, neverPanics (ListJobs (Job:=Job) env c labels))
  /\ (forall p : Pod, neverPanics (CreatePod env c p))
  /\ (forall j : Job, neverPanics (CreateJob env c j))
  /\ (forall name, neverPanics (DeleteJob env c name))
  /\ (forall name (j : Job), neverPanics (PatchJob env c name j))
  /\ (forall name (j : Job), neverPanics (PatchJobStatus env c name j))
  /\ (forall name (s : Secret), neverPanics (ReplaceSecret env c name s))
  /\ (forall pod, neverPanics (GetLog env c pod)).
Proof.
  intros _ Hc. unfold neverPanics. repeat split; intros; method_returns Hc.
Qed.

End NoPanic.

Lemma methods_never_panic_witness :
  (forall name, neverPanics (GetPod (Pod:=Named) (env1 down) (setLogger None realClient) name))
  /\ (forall labels, neverPanics (ListPods (Pod:=Named) (env1 down) (setLogger None realClient) labels))
  /\ (forall name, neverPanics (DeletePod (env1 down) (setLogger None realClient) name))
  /\ (forall name, neverPanics (GetJob (Job:=Named) (env1 down) (setLogger None realClient) name))
  /\ (forall labels, neverPanics (ListJobs (Job:=Named) (env1 down) (setLogger None realClient) labels))
  /\ (forall p : Named, neverPanics (CreatePod (env1 down) (setLogger None realClient) p))
  /\ (forall j : Named, neverPanics (CreateJob (env1 down) (setLogger None realClient) j))
  /\ (forall name, neverPanics (DeleteJob (env1 down) (setLogger None realClient) name))
  /\ (forall name (j : Named), neverPanics (PatchJob (env1 down) (setLogger None realClient) name j))
  /\ (forall name (j : Named),
        neverPanics (PatchJobStatus (env1 down) (setLogger None realClient) name j))
  /\ (forall name (s : Named), neverPanics (ReplaceSecret (env1 down) (setLogger None realClient) name s))
  /\ (forall pod, neverPanics (GetLog (env1 down) (setLogger None realClient) pod)).
Proof.
  apply (methods_never_panic (env1 down) (Pod:=Named) (Job:=Named) (Secret:=Named)
           (setLogger None realClient)).
  - reflexivity.
  - right. discriminate.
Defined.

(** X13. A client that is not fake and has no [http.Client] panics at its
    first attempt, as soon as the request is built: nothing is sent, nothing
    sleeps, no error is returned. *)
Theorem requestRetry_panics_without_http_client (env : Env) {B : Type}
    `{Encodable B} (c : Client) (r : request_t B) (req : HttpRequest) (w : World) :
  fake c = false ->
  client c = None ->
  buildRequest env c (method r) (path r) (query r) (requestBody r) = inr req ->
  exists why,
    requestRetry env c r w = (Panic why, mkWorld (trace w ++ [EvDoRequest]) (sent w)).
Proof.
  intros Hf Hc Hb. eexists.
  unfold requestRetry. rewrite Hf. unfold maxRetries. cbn [retryLoop].
  unfold mbind, M_bind, bind, doRequest, emit, panic. cbn. rewrite Hb, Hc.
  reflexivity.
Qed.

Lemma requestRetry_panics_without_http_client_witness :
  exists why,
    requestRetry (env1 down) bareClient getReq world0
    = (Panic why, mkWorld (trace world0 ++ [EvDoRequest]) (sent world0)).
Proof.
  eapply (requestRetry_panics_without_http_client (env1 down) bareClient getReq _ world0).
  - reflexivity.
  - reflexivity.
  - reflexivity.
Defined.

(** ** Every method logs once, and first *)

Lemma request_world (env : Env) {B T : Type} `{Encodable B} `{Decodable T}
    (c : Client) (r : request_t B) (slot : option T) (w : World) :
  (request env c r slot w).2 = (requestRetry env c r w).2.
Proof.
  unfold request, mbind, M_bind, bind.
  destruct (requestRetry env c r w) as [[[out err]|why] w1]; [|reflexivity].
  destruct err; [reflexivity|]. destruct slot as [t|]; [|reflexivity].
  now destruct (Unmarshal (bytes out) t).
Qed.

(** What [requestRetry] adds to the trace holds no logger call. *)
Lemma requestRetry_adds_no_log (env : Env) {B : Type} `{Encodable B}
    (c : Client) (r : request_t B) (w : World) :
  exists evs, trace (requestRetry env c r w).2 = trace w ++ evs /\ logged evs = [].
Proof.
  destruct (requestRetry_shape env c r w) as (evs & Hs & Ht & _).
  destruct (RunShape_counts env c r w _ evs Hs) as (k & _ & _ & _ & _ & _ & Hl).
  now exists evs.
Qed.

Section LogFirst.

Context (env : Env) {Pod Job Secret : Type}.
Context `{Decodable Pod, Encodable Pod, Formatter Pod}.
Context `{Decodable Job, Encodable Job, Formatter Job}.
Context `{Encodable Secret}.

Ltac method_logs_first :=
  unfold GetPod, ListPods, DeletePod, GetJob, ListJobs, CreatePod, CreateJob,
    DeleteJob, PatchJob, PatchJobStatus, ReplaceSecret, GetLog,
    mbind, M_bind, bind at 1;
  rewrite log_run; unfold bind;
  lazymatch goal with
  | |- context [@request env _ _ _ _ ?c ?r ?slot ?w1] =>
      let Hw := fresh "Hw" in
      pose proof (request_world env c r slot w1) as Hw;
      destruct (requestRetry_adds_no_log env c r w1) as (? & Ht & Hl);
      rewrite <- Hw in Ht;
      destruct (request env c r slot w1) as [[[? ?]|?] ?];
      cbn [snd trace mret M_ret ret] in Ht |- *; rewrite Ht, <- app_assoc; eexists;
      (split; [reflexivity | exact Hl])
  | |- context [@requestRetry env _ _ ?c ?r ?w1] =>
      destruct (requestRetry_adds_no_log env c r w1) as (? & Ht & Hl);
      cbn [snd trace mret M_ret ret] in Ht |- *; rewrite Ht, <- app_assoc; eexists;
      (split; [reflexivity | exact Hl])
  end.

(** X14. Each of the twelve methods, on any client and network, first makes
    the one logger call that names it and lists its arguments (none when no
    logger is set), before any attempt; nothing is logged after that, so
    retries, sleeps and failures are silent. [ReplaceSecret] lists the
    name only. *)
Theorem methods_log_once_and_first (c : Client) :
  (forall name, logsFirst env c "GetPod" [AString name] (GetPod (Pod:=Pod) env c name))
  /\ (forall labels,
        logsFirst env c "ListPods" [ALabels labels] (ListPods (Pod:=Pod) env c labels))
  /\ (forall name, logsFirst env c "DeletePod" [AString name] (DeletePod env c name))
  /\ (forall name, logsFirst env c "GetJob" [AString name] (GetJob (Job:=Job) env c name))
  /\ (forall labels,
        logsFirst env c "ListJobs" [ALabels labels] (ListJobs (Job:=Job) env c labels))
  /\ (forall p : Pod, logsFirst env c "CreatePod" [AValue p] (CreatePod env c p))
  /\ (forall j : Job, logsFirst env c "CreateJob" [AValue j] (CreateJob env c j))
  /\ (forall name, logsFirst env c "DeleteJob" [AString name] (DeleteJob env c name))
  /\ (forall name (j : Job),
        logsFirst env c "PatchJob" [AString name; AValue j] (PatchJob env c name j))
  /\ (forall name (j : Job),
        logsFirst env c "PatchJobStatus" [AString name; AValue j]
                  (PatchJobStatus env c name j))
  /\ (forall name (s : Secret),
        logsFirst env c "ReplaceSecret" [AString name] (ReplaceSecret env c name s))
  /\ (forall pod, logsFirst env c "GetLog" [AString pod] (GetLog env c pod)).
Proof.
  unfold logsFirst. repeat split; intros; method_logs_first.
Qed.

End LogFirst.

(** ** The request that an attempt builds *)

(** X15. Every request that [doRequest] builds carries the bearer token of
    the client in its [Authorization] header, and a [Content-Type] that is
    the merge-patch type for the method PATCH and [application/json] for
    every other method, whatever headers [http.NewRequest] had set; method,
    URL and body are left as [http.NewRequest] made them. *)
Theorem buildRequest_headers (env : Env) {B : Type} `{Encodable B}
    (c : Client) (method urlPath : string) (query : gmap string string)
    (body : option B) (req : HttpRequest) :
  buildRequest env c method urlPath query body = inr req ->
  Header req !! "Authorization"%string = Some ["Bearer " +:+ token c]
  /\ Header req !! "Content-Type"%string
     = Some [if String.eqb method MethodPatch
             then "application/strategic-merge-patch+json"%string
             else "application/json"%string]
  /\ exists buf req0,
       NewRequest env method (baseURL c +:+ urlPath) buf = inr req0
       /\ Method req = Method req0 /\ URL req = URL req0
       /\ ReqBody req = ReqBody req0
       /\ (body = None -> buf = None).
Proof.
  unfold buildRequest. intros Hb.
  destruct (match body with
            | Some b => match Marshal b with inl err => inl err | inr bs => inr (Some bs) end
            | None => inr None
            end) as [err|buf] eqn:Hbuf; [discriminate|].
  destruct (NewRequest env method (baseURL c +:+ urlPath) buf) as [err|req0] eqn:Hn;
    [discriminate|].
  inversion Hb; subst; clear Hb. cbn [Header Method URL ReqBody]. unfold HeaderSet.
  split; [|split].
  - destruct (String.eqb method MethodPatch);
      (rewrite lookup_insert_ne by discriminate); apply lookup_insert_eq.
  - destruct (String.eqb method MethodPatch); apply lookup_insert_eq.
  - exists buf, req0. repeat split; [exact Hn|].
    intros ->. now inversion Hbuf.
Qed.

Lemma buildRequest_headers_witness :
  Header sentGet !! "Authorization"%string = Some ["Bearer " +:+ token realClient]
  /\ Header sentGet !! "Content-Type"%string
     = Some [if String.eqb MethodGet MethodPatch
             then "application/strategic-merge-patch+json"%string
             else "application/json"%string]
  /\ exists buf req0,
       NewRequest (env1 down) MethodGet (baseURL realClient +:+ path getReq) buf
       = inr req0
       /\ Method sentGet = Method req0 /\ URL sentGet = URL req0
       /\ ReqBody sentGet = ReqBody req0
       /\ (nilBody = None -> buf = None).
Proof.
  apply (buildRequest_headers (env1 down) realClient MethodGet (path getReq) ∅ nilBody
           sentGet).
  reflexivity.
Defined.

(** Adding the parameters of a query one after the other: each key of the
    query gets its value appended once, every other key is left alone. *)
Lemma ValuesAdd_fold_lookup (l : list (string * string)) :
  NoDup (l.*1) ->
  forall (q : Values) (k : string),
    fold_left (fun q kv => ValuesAdd q kv.1 kv.2) l q !! k
    = match (list_to_map l : gmap string string) !! k with
      | Some v => Some (default [] (q !! k) ++ [v])
      | None => q !! k
      end.
Proof.
  induction l as [|[k0 v0] l IH]; intros Hnd q k; [reflexivity|].
  cbn [fmap list_fmap fst] in Hnd. apply NoDup_cons in Hnd as [Hk0 Hnd].
  cbn [fold_left fst snd list_to_map foldr]. rewrite (IH Hnd).
  unfold ValuesAdd. destruct (decide (k0 = k)) as [->|Hne].
  - rewrite (not_elem_of_list_to_map_1 l k Hk0).
    change (uncurry insert (k, v0) (list_to_map l))
      with (<[k:=v0]> (list_to_map l : gmap string string)).
    now rewrite !lookup_insert_eq.
  - change (uncurry insert (k0, v0) (list_to_map l))
      with (<[k0:=v0]> (list_to_map l : gmap string string)).
    now rewrite !lookup_insert_ne by done.
Qed.

Lemma ValuesAdd_fold_range (m : gmap string string) (l : list (string * string))
    (q : Values) (k : string) :
  l ≡ₚ map_to_list m ->
  fold_left (fun q kv => ValuesAdd q kv.1 kv.2) l q !! k
  = match m !! k with
    | Some v => Some (default [] (q !! k) ++ [v])
    | None => q !! k
    end.
Proof.
  intros Hperm.
  assert (Hnd : NoDup (l.*1)).
  { rewrite Hperm. apply NoDup_fst_map_to_list. }
  rewrite (ValuesAdd_fold_lookup l Hnd).
  now rewrite (list_to_map_proper l (map_to_list m) Hnd Hperm), list_to_map_to_list.
Qed.

(** X16. The request built does not depend on the order in which the
    [range] loop visits the query map: with any two orders that visit each
    entry once, [doRequest] builds the same request. *)
Theorem buildRequest_order_independent (env : Env) {B : Type} `{Encodable B}
    (order : gmap string string -> list (string * string))
    (c : Client) (method urlPath : string) (query : gmap string string)
    (body : option B) :
  rangeOrder env query ≡ₚ map_to_list query ->
  order query ≡ₚ map_to_list query ->
  buildRequest (setRangeOrder order env) c method urlPath query body
  = buildRequest env c method urlPath query body.
Proof.
  intros Hp1 Hp2. unfold buildRequest. cbn [NewRequest ParseQuery Encode rangeOrder setRangeOrder].
  destruct (match body with
            | Some b => match Marshal b with inl err => inl err | inr bs => inr (Some bs) end
            | None => inr None
            end) as [err|buf]; [reflexivity|].
  destruct (NewRequest env method (baseURL c +:+ urlPath) buf) as [err|req0];
    [reflexivity|].
  do 3 f_equal. apply map_eq. intros k.
  now rewrite (ValuesAdd_fold_range query _ _ k Hp1), (ValuesAdd_fold_range query _ _ k Hp2).
Qed.

Lemma buildRequest_order_independent_witness :
  buildRequest (setRangeOrder (fun m => rev (map_to_list m)) (env1 down)) realClient
    MethodGet "/api/v1/namespaces/ns/pods"
    (<["labelSelector"%string := "a = 1"%string]> (<["watch"%string := "true"%string]> ∅))
    nilBody
  = buildRequest (env1 down) realClient MethodGet "/api/v1/namespaces/ns/pods"
      (<["labelSelector"%string := "a = 1"%string]> (<["watch"%string := "true"%string]> ∅))
      nilBody.
Proof.
  apply (buildRequest_order_independent (env1 down)
           (fun m => rev (map_to_list m)) realClient MethodGet
           "/api/v1/namespaces/ns/pods"
           (<["labelSelector"%string := "a = 1"%string]>
              (<["watch"%string := "true"%string]> ∅))
           nilBody).
  - reflexivity.
  - symmetry. apply Permutation_rev.
Defined.

(** X17. The query string of the request built encodes the parameters that
    the URL already had, with the value of each key of the query appended
    once to the values of that key; keys that are not in the query keep
    their values, so an empty query changes nothing. *)
Theorem buildRequest_query (env : Env) {B : Type} `{Encodable B}
    (c : Client) (method urlPath : string) (query : gmap string string)
    (body : option B) (req : HttpRequest) :
  rangeOrder env query ≡ₚ map_to_list query ->
  buildRequest env c method urlPath query body = inr req ->
  exists (buf : option string) (req0 : HttpRequest) (q : Values),
    NewRequest env method (baseURL c +:+ urlPath) buf = inr req0
    /\ RawQuery req = Encode env q
    /\ (forall k,
          q !! k
          = match query !! k with
            | Some v => Some (default [] (ParseQuery env (RawQuery req0) !! k) ++ [v])
            | None => ParseQuery env (RawQuery req0) !! k
            end)
    /\ (query = ∅ -> q = ParseQuery env (RawQuery req0)).
Proof.
  intros Hperm. unfold buildRequest. intros Hb.
  destruct (match body with
            | Some b => match Marshal b with inl err => inl err | inr bs => inr (Some bs) end
            | None => inr None
            end) as [err|buf]; [discriminate|].
  destruct (NewRequest env method (baseURL c +:+ urlPath) buf) as [err|req0] eqn:Hn;
    [discriminate|].
  inversion Hb; subst; clear Hb. cbn [RawQuery].
  eexists buf, req0, _. split; [exact Hn|]. split; [reflexivity|]. split.
  - intros k. apply (ValuesAdd_fold_range query _ _ k Hperm).
  - intros ->. apply map_eq. intros k.
    rewrite (ValuesAdd_fold_range ∅ _ _ k Hperm). now rewrite lookup_empty.
Qed.

Lemma buildRequest_query_witness :
  exists (buf : option string) (req0 : HttpRequest) (q : Values),
    NewRequest (env1 down) MethodGet (baseURL realClient +:+ path listReq) buf
    = inr req0
    /\ RawQuery sentList = Encode (env1 down) q
    /\ (forall k,
          q !! k
          = match query listReq !! k with
            | Some v =>
                Some (default [] (ParseQuery (env1 down) (RawQuery req0) !! k) ++ [v])
            | None => ParseQuery (env1 down) (RawQuery req0) !! k
            end)
    /\ (query listReq = ∅ -> q = ParseQuery (env1 down) (RawQuery req0)).
Proof.
  apply (buildRequest_query (env1 down) realClient MethodGet (path listReq)
           (query listReq) nilBody sentList).
  - reflexivity.
  - reflexivity.
Defined.

(** ** Label selectors in general *)

Lemma append_nil_r (a : string) : a +:+ EmptyString = a.
Proof.
  induction a as [|x a IH]; [reflexivity|].
  change (String x (a +:+ EmptyString) = String x a). now rewrite IH.
Qed.

(** Every element of a list occurs in its [Join]. *)
Lemma Join_contains (l : list string) (sep x : string) :
  In x l -> contains (Join l sep) x.
Proof.
  induction l as [|a l IH]; intros Hin; [destruct Hin|].
  destruct l as [|b l].
  - destruct Hin as [->|[]]. exists EmptyString, EmptyString.
    cbn [Join]. now rewrite append_nil_r.
  - change (Join (a :: b :: l) sep) with (a +:+ sep +:+ Join (b :: l) sep).
    destruct Hin as [->|Hin].
    + exists EmptyString, (sep +:+ Join (b :: l) sep). reflexivity.
    + destruct (IH Hin) as (pre & post & Heq). rewrite Heq.
      exists (a +:+ sep +:+ pre), post. now rewrite !append_assoc.
Qed.

(** X18. Whatever the order in which the labels are visited, no label is
    lost: the selector holds the pair [k = v] of every label of the map.
    No labels give the empty selector, and a single label gives its pair
    alone, with no comma. *)
Theorem labelsToSelector_keeps_every_label (env : Env) (labels : gmap string string) :
  rangeOrder env labels ≡ₚ map_to_list labels ->
  (forall k v, labels !! k = Some v ->
               contains (labelsToSelector env labels) (k +:+ " = " +:+ v))
  /\ (labels = ∅ -> labelsToSelector env labels = EmptyString)
  /\ (forall k v, labels = {[ k := v ]} ->
                  labelsToSelector env labels = k +:+ " = " +:+ v).
Proof.
  intros Hperm. unfold labelsToSelector. split; [|split].
  - intros k v Hkv. apply Join_contains.
    apply (in_map (fun kv : string * string => kv.1 +:+ " = " +:+ kv.2) _ (k, v)).
    apply list_elem_of_In. rewrite Hperm. now apply elem_of_map_to_list.
  - intros ->. rewrite map_to_list_empty in Hperm.
    apply Permutation_nil_r in Hperm. now rewrite Hperm.
  - intros k v ->. rewrite map_to_list_singleton in Hperm.
    apply Permutation_singleton_r in Hperm. now rewrite Hperm.
Qed.

Lemma labelsToSelector_keeps_every_label_witness :
  (forall k v,
      (<["app"%string := "prow"%string]> (<["tier"%string := "ci"%string]> ∅)
       : gmap string string) !! k = Some v ->
      contains (labelsToSelector (env1 down)
                  (<["app"%string := "prow"%string]> (<["tier"%string := "ci"%string]> ∅)))
               (k +:+ " = " +:+ v))
  /\ ((<["app"%string := "prow"%string]> (<["tier"%string := "ci"%string]> ∅)
       : gmap string string) = ∅ ->
      labelsToSelector (env1 down)
        (<["app"%string := "prow"%string]> (<["tier"%string := "ci"%string]> ∅))
      = EmptyString)
  /\ (forall k v,
        (<["app"%string := "prow"%string]> (<["tier"%string := "ci"%string]> ∅)
         : gmap string string) = {[ k := v ]} ->
        labelsToSelector (env1 down)
          (<["app"%string := "prow"%string]> (<["tier"%string := "ci"%string]> ∅))
        = k +:+ " = " +:+ v).
Proof.
  apply (labelsToSelector_keeps_every_label (env1 down)
           (<["app"%string := "prow"%string]> (<["tier"%string := "ci"%string]> ∅))).
  reflexivity.
Defined.

(** ** Clients built in the cluster *)

(** X19. A client that [NewClientInCluster] returns is not fake, has no
    logger, works in the namespace asked for, against the in-cluster base
    URL, with the text of the token file as its token and a TLS
    configuration that starts at TLS 1.2; and since it has an
    [http.Client], no call of [requestRetry] on it panics, on any network. *)
Theorem NewClientInCluster_client (env : Env) (ns : string) (c : Client)
    (err : option error) :
  NewClientInCluster env ns = (Some c, err) ->
  err = None
  /\ fake c = false
  /\ Logger c = None
  /\ namespace c = ns
  /\ baseURL c = inClusterBaseURL
  /\ ReadFile env tokenFile = inr (token c)
  /\ (exists cfg, client c = Some {| TLSClientConfig := Some cfg |}
                  /\ MinVersion cfg = VersionTLS12)
  /\ (forall (net : Env) (B : Type) (E : Encodable B) (r : request_t B) (w : World),
        exists a w', requestRetry net c r w = (Val a, w')).
Proof.
  unfold NewClientInCluster, AppendCertsFromPEM.
  destruct (ReadFile env tokenFile) as [e1|tok]; [discriminate|].
  destruct (ReadFile env rootCAFile) as [e2|ca]; [discriminate|].
  intros Heq. inversion Heq; subst; clear Heq.
  do 6 (split; [reflexivity|]). split.
  - eexists. split; reflexivity.
  - intros net B E r w. apply requestRetry_returns. right. discriminate.
Qed.

Lemma NewClientInCluster_client_witness :
  @None error = None
  /\ fake (setLogger None realClient) = false
  /\ Logger (setLogger None realClient) = None
  /\ namespace (setLogger None realClient) = "ns"%string
  /\ baseURL (setLogger None realClient) = inClusterBaseURL
  /\ ReadFile (env1 down) tokenFile = inr (token (setLogger None realClient))
  /\ (exists cfg, client (setLogger None realClient)
                  = Some {| TLSClientConfig := Some cfg |}
                  /\ MinVersion cfg = VersionTLS12)
  /\ (forall (net : Env) (B : Type) (E : Encodable B) (r : request_t B) (w : World),
        exists a w', requestRetry net (setLogger None realClient) r w = (Val a, w')).
Proof.
  apply (NewClientInCluster_client (env1 down) "ns" (setLogger None realClient) None).
  reflexivity.
Defined.

(** ** What a retry sends *)

Lemma In_failedAttempts (req q : HttpRequest) (k : nat) (backoff : Z) :
  In (EvRoundTrip q) (failedAttempts req k backoff) -> q = req.
Proof.
  revert backoff. induction k as [|k IH]; intros backoff Hin; [destruct Hin|].
  cbn [failedAttempts app] in Hin.
  destruct Hin as [Hin | [Hin | [Hin | Hin]]]; try discriminate Hin.
  - now inversion Hin.
  - now apply (IH (double backoff)).
Qed.

Lemma In_unsentAttempts (q : HttpRequest) (k : nat) (backoff : Z) :
  ~ In (EvRoundTrip q) (unsentAttempts k backoff).
Proof.
  revert backoff. induction k as [|k IH]; intros backoff Hin; [destruct Hin|].
  cbn [unsentAttempts app] in Hin.
  destruct Hin as [Hin | [Hin | Hin]]; try discriminate Hin.
  now apply (IH (double backoff)).
Qed.

(** X20. Every round trip of one call sends the same request, the one built
    from the descriptor: a retry after a transport failure sends again,
    unchanged, what the failed attempt sent, a POST or a PUT with its body
    included. On a client with an [http.Client] that is not fake, a request
    that can be built is sent at least once. *)
Theorem requestRetry_resends_the_same_request (env : Env) {B : Type}
    `{Encodable B} (c : Client) (r : request_t B) (w : World) :
  exists evs,
    trace (requestRetry env c r w).2 = trace w ++ evs
    /\ (forall q, In (EvRoundTrip q) evs ->
                  buildRequest env c (method r) (path r) (query r) (requestBody r)
                  = inr q)
    /\ (fake c = false -> client c <> None ->
        (exists q, buildRequest env c (method r) (path r) (query r) (requestBody r)
                   = inr q) ->
        (1 <= roundTrips evs)%nat).
Proof.
  destruct (requestRetry_shape env c r w) as (evs & Hs & Ht & _).
  exists evs. split; [exact Ht|]. clear Ht.
  destruct Hs as [Hf | err Hf Hb | req Hf Hb Hc
                  | req hc k resp Hf Hb Hc Hk Hfail Hok
                  | req hc errs Hf Hb Hc Hfail].
  - split; [intros q []|]. intros Hnf. congruence.
  - split; [intros q Hin; now apply In_unsentAttempts in Hin|].
    intros _ _ [q Hq]. congruence.
  - split; [|intros _ Hn; congruence].
    intros q [Hin|[]]. discriminate Hin.
  - split.
    + intros q Hin. apply in_app_or in Hin as [Hin|Hin].
      * apply In_failedAttempts in Hin. now subst.
      * destruct Hin as [Hin | [Hin | [Hin | []]]]; try discriminate Hin.
        inversion Hin. now subst.
    + intros _ _ _. rewrite roundTrips_app, roundTrips_failedAttempts. cbn. lia.
  - split.
    + intros q Hin. apply In_failedAttempts in Hin. now subst.
    + intros _ _ _. rewrite roundTrips_failedAttempts. unfold maxRetries. lia.
Qed.

(** ** A conflict through a typed method *)

Section Conflict.

Context (env : Env) {Job : Type} `{Decodable Job, Encodable Job, Formatter Job}.

(** X21. When the server answers a 409, [PatchJob] returns the zero Job,
    untouched by any decoding, and the error made by [ConflictError] from
    the body text; the call ends at that answer, with no further attempt. *)
Theorem PatchJob_conflict
    (c : Client) (name : string) (job : Job) (req : HttpRequest) (hc : httpClient)
    (resp : Response) (k : nat) (body : string) (w : World) :
  fake c = false ->
  client c = Some hc ->
  buildRequest env c MethodPatch
    ("/apis/batch/v1/namespaces/" +:+ namespace c +:+ "/jobs/" +:+ name) ∅ (Some job)
  = inr req ->
  (k < maxRetries)%nat ->
  (forall i, (i < k)%nat -> exists err, Do env (sent w + i) req = inl err) ->
  Do env (sent w + k) req = inr resp ->
  StatusCode resp = 409 ->
  Body resp = inr body ->
  exists w',
    PatchJob env c name job w
    = (Val (zero, Some (ConflictError (Errorf ("body: " +:+ body)))), w')
    /\ attempts (trace w') = (attempts (trace w) + k + 1)%nat
    /\ last (trace w') = Some EvClose.
Proof.
  intros Hf Hc Hb Hk Hfail Hok Hs Hbody.
  unfold PatchJob, mbind, M_bind, bind at 1. rewrite log_run.
  unfold request, mbind, M_bind, bind.
  erewrite requestRetry_fail_then_answer; try eassumption.
  unfold interpret. rewrite Hbody, Hs.
  cbn [Z.eqb Pos.eqb fst snd trace sent mret M_ret ret default from_option id].
  eexists. split; [reflexivity|]. cbn [trace]. split.
  - rewrite !attempts_app, attempts_failedAttempts.
    unfold logCall. destruct (Logger c); cbn; lia.
  - now rewrite !last_app.
Qed.

End Conflict.

Lemma PatchJob_conflict_witness :
  exists w',
    PatchJob (env1 (downThen 1 (resp409 "object has been modified"))) realClient
             "j" (mkNamed "j") world0
    = (Val (zero, Some (ConflictError (Errorf ("body: " +:+ "object has been modified")))),
       w')
    /\ attempts (trace w') = (attempts (trace world0) + 1 + 1)%nat
    /\ last (trace w') = Some EvClose.
Proof.
  eapply (PatchJob_conflict (env1 (downThen 1 (resp409 "object has been modified")))
            realClient "j" (mkNamed "j") _ _ (resp409 "object has been modified") 1
            "object has been modified" world0).
  - reflexivity.
  - reflexivity.
  - reflexivity.
  - unfold maxRetries. lia.
  - intros i Hi. exists refused. destruct i as [|i]; [reflexivity | lia].
  - reflexivity.
  - reflexivity.
  - reflexivity.
Defined.
